(** * split_pdf: range-table parser, range validator and split orchestrator

    A shallow embedding of [split_pdf.py].  The program reads a CSV table
    of page ranges, checks every range against the page count of a master
    PDF and writes one sliced PDF per range.

    Modelling choices.
    - Text is a [string] whose characters are the code points 0..255.
      [isspace], [lower] and [int] follow CPython on that range.
    - [csv.reader] over a file opened with a given encoding is a library
      collaborator: for each encoding a file is given by the rows the
      reader delivers and, possibly, the [UnicodeDecodeError] that ends
      the iteration.
    - The file system is a finite map from a location to what is stored
      there.  Which location [out_dir / name] denotes, and whether the
      operating system lets a path that does not exist be opened for
      writing, are collaborators, taken as parameters of the record loop:
      names that denote one file have one location, inside or outside the
      output directory.  Writing into a file that was opened succeeds.
    - Of what the program prints, only the [[OK]] lines are kept.
    - A page is opaque: the program only copies pages.
    - [pathlib.Path] and the file system behind the two prompts are
      collaborators, taken as parameters of the prompts. *)

From Stdlib Require Import ZArith NArith Ascii String List Bool Lia.
From Stdlib Require Import DecimalNat DecimalString.
From stdpp Require Import gmap strings list fin_maps.

Import ListNotations.
Local Open Scope string_scope.
Local Open Scope Z_scope.

(** ** Text primitives *)

Module Text.

(** [str.isspace] on one character. *)
Definition is_space (c : ascii) : bool :=
  let n := N_of_ascii c in
  ((9 <=? n) && (n <=? 13) || (28 <=? n) && (n <=? 32)
   || (n =? 133) || (n =? 160))%N.

(** An empty string is falsy. *)
Definition truthy (s : string) : bool :=
  match s with
  | EmptyString => false
  | String _ _ => true
  end.

Fixpoint lstrip (s : string) : string :=
  match s with
  | EmptyString => EmptyString
  | String c t => if is_space c then lstrip t else s
  end.

Fixpoint rstrip (s : string) : string :=
  match s with
  | EmptyString => EmptyString
  | String c t =>
      let t' := rstrip t in
      if is_space c && negb (truthy t') then EmptyString else String c t'
  end.

(** [s.strip()] *)
Definition strip (s : string) : string := rstrip (lstrip s).

Definition lower_char (c : ascii) : ascii :=
  let n := N_of_ascii c in
  if ((65 <=? n) && (n <=? 90)
      || (192 <=? n) && (n <=? 222) && negb (n =? 215))%N
  then ascii_of_N (n + 32)
  else c.

(** [s.lower()] *)
Fixpoint lower (s : string) : string :=
  match s with
  | EmptyString => EmptyString
  | String c t => String (lower_char c) (lower t)
  end.

(** [s.startswith(p)] *)
Fixpoint startswith (p s : string) : bool :=
  match p, s with
  | EmptyString, _ => true
  | String a p', String b s' => Ascii.eqb a b && startswith p' s'
  | String _ _, EmptyString => false
  end.

(** [needle in hay] *)
Fixpoint contains (needle hay : string) : bool :=
  startswith needle hay
  || match hay with
     | EmptyString => false
     | String _ t => contains needle t
     end.

(** [s.endswith(suf)] *)
Fixpoint endswith (suf s : string) : bool :=
  String.eqb s suf
  || match s with
     | EmptyString => false
     | String _ t => endswith suf t
     end.

Definition digit_value (c : ascii) : option Z :=
  let n := N_of_ascii c in
  if ((48 <=? n) && (n <=? 57))%N then Some (Z.of_N n - 48) else None.

(** Digits of a base-10 literal; a single underscore may separate two
    digits. *)
Fixpoint int_digits (acc : Z) (after_digit : bool) (s : string) : option Z :=
  match s with
  | EmptyString => if after_digit then Some acc else None
  | String c t =>
      if Ascii.eqb c "_"
      then if after_digit then int_digits acc false t else None
      else match digit_value c with
           | Some d => int_digits (10 * acc + d) true t
           | None => None
           end
  end.

(** [int(s)]: [None] stands for [ValueError].  Text being Latin-1 here,
    the digits are the ASCII digits; the decimal digits of other scripts,
    which Python accepts too, and the interpreter's limit on the length of
    a literal are left out. *)
Definition int (s : string) : option Z :=
  match strip s with
  | String "+" t => int_digits 0 false t
  | String "-" t => option_map Z.opp (int_digits 0 false t)
  | t => int_digits 0 false t
  end.

(** [str(n)] for a non-negative integer. *)
Definition str_nat (n : nat) : string :=
  NilEmpty.string_of_uint (Nat.to_uint n).

End Text.

Import Text.

(** ** Range table parser: [read_ranges_csv] *)

Definition csv_row := list string.

(** A parsed row [(start_page, end_page, output_file)]. *)
Definition range := (Z * Z * string)%type.

(** The three [ValueError]s of the parser, with the values their messages
    interpolate. *)
Inductive RowError :=
| ExpectedThreeColumns (r_idx : nat) (got : nat) (row : csv_row)
| StartStopNotIntegers (r_idx : nat) (c0 c1 : string)
| FilenameBlank (r_idx : nat).

(** [not row or all(not (c or "").strip() for c in row)] *)
Definition is_blank_row (row : csv_row) : bool :=
  match row with [] => true | _ :: _ => false end
  || forallb (fun c => negb (truthy (strip c))) row.

(** [header_tokens.issuperset({"start", "stop", "filename"})] *)
Definition tokens_issuperset (l0 l1 l2 : string) : bool :=
  forallb (fun k => existsb (String.eqb k) [l0; l1; l2])
          ["start"; "stop"; "filename"].

(** The condition of the header [if] on the stripped cells. *)
Definition looks_like_header (c0 c1 c2 : string) : bool :=
  contains "start" (lower c0)
  || contains "stop" (lower c1)
  || contains "filename" (lower c2)
  || tokens_issuperset (lower c0) (lower c1) (lower c2).

Inductive RowStep :=
| Skip
| Raise (e : RowError)
| Append (r : range).

(** [row[i]] once [len(row) >= 3] is known. *)
Definition cell (row : csv_row) (i : nat) : string := nth i row "".

(** Body of the [for r_idx, row in enumerate(reader, start=1)] loop. *)
Definition row_body (r_idx : nat) (row : csv_row) : RowStep :=
  if is_blank_row row then Skip
  else if (length row <? 3)%nat
  then Raise (ExpectedThreeColumns r_idx (length row) row)
  else
    let c0 := strip (cell row 0) in
    let c1 := strip (cell row 1) in
    let c2 := strip (cell row 2) in
    if (r_idx =? 1)%nat && looks_like_header c0 c1 c2 then Skip
    else
      match int c0, int c1 with
      | Some start_page, Some end_page =>
          if negb (truthy c2) then Raise (FilenameBlank r_idx)
          else Append (start_page, end_page, c2)
      | _, _ => Raise (StartStopNotIntegers r_idx c0 c1)
      end.

(** The row loop from row number [r_idx] on, with the list [rows] built so
    far. *)
Fixpoint rows_loop (r_idx : nat) (input : list csv_row) (rows : list range)
  : RowError + list range :=
  match input with
  | [] => inr rows
  | row :: rest =>
      match row_body r_idx row with
      | Skip => rows_loop (S r_idx) rest rows
      | Raise e => inl e
      | Append r => rows_loop (S r_idx) rest (rows ++ [r])%list
      end
  end.

Inductive Encoding := utf_8_sig | utf_8 | cp1252.

Definition encodings_to_try : list Encoding := [utf_8_sig; utf_8; cp1252].

Record UnicodeDecodeError := {
  ude_encoding : Encoding;
  ude_position : nat
}.

(** What iterating [csv.reader(f)] gives for one encoding: the rows
    delivered and, when decoding fails, the error that ends the
    iteration.  Other exceptions of the iteration ([csv.Error], an error
    of the operating system while reading) have no counterpart here. *)
Record Reader := {
  delivered : list csv_row;
  decode_failure : option UnicodeDecodeError
}.

Definition CsvFile := Encoding -> Reader.

Inductive ReadError :=
| RowFailure (e : RowError)
| DecodeFailure (e : UnicodeDecodeError)
| RuntimeError.

(** One pass of the [try] block: [inl] is an exception leaving the block. *)
Definition try_encoding (file : CsvFile) (enc : Encoding)
  : ReadError + list range :=
  match rows_loop 1 (delivered (file enc)) [] with
  | inl e => inl (RowFailure e)
  | inr rows =>
      match decode_failure (file enc) with
      | Some e => inl (DecodeFailure e)
      | None => inr rows
      end
  end.

(** The [for enc in encodings_to_try] loop and the final [raise].  The
    second component lists the encodings the file was opened with. *)
Fixpoint encodings_loop (file : CsvFile) (encs : list Encoding)
    (last_err : option UnicodeDecodeError)
  : (ReadError + list range) * list Encoding :=
  match encs with
  | [] =>
      (inl (match last_err with
            | Some e => DecodeFailure e
            | None => RuntimeError
            end), [])
  | enc :: rest =>
      match try_encoding file enc with
      | inl (DecodeFailure e) =>
          let '(res, opened) := encodings_loop file rest (Some e) in
          (res, enc :: opened)
      | other => (other, [enc])
      end
  end.

Definition read_ranges_csv (file : CsvFile)
  : (ReadError + list range) * list Encoding :=
  encodings_loop file encodings_to_try None.

(** ** Path helpers *)

(** [PurePosixPath(p).name] for a path that does not end in a separator:
    the text after the last ["/"]. *)
Fixpoint path_name (p : string) : string :=
  match p with
  | EmptyString => EmptyString
  | String c t =>
      if contains "/" t then path_name t
      else if Ascii.eqb c "/" then t else p
  end.

(** [name.rfind('.')]; [None] stands for -1. *)
Fixpoint rfind_dot (name : string) : option nat :=
  match name with
  | EmptyString => None
  | String c t =>
      match rfind_dot t with
      | Some i => Some (S i)
      | None => if Ascii.eqb c "." then Some 0%nat else None
      end
  end.

(** [Path(p).stem] *)
Definition path_stem (p : string) : string :=
  let name := path_name p in
  match rfind_dot name with
  | Some i =>
      if ((0 <? i) && (i <? String.length name - 1))%nat
      then substring 0 i name
      else name
  | None => name
  end.

(** [f"{original_stem}_{counter}.pdf"] *)
Definition suffixed_name (original_stem : string) (counter : nat) : string :=
  original_stem +:+ "_" +:+ str_nat counter +:+ ".pdf".

(** The "Ensure .pdf suffix" step. *)
Definition ensure_pdf_suffix (output_file : string) : string :=
  let output_file := strip output_file in
  if negb (endswith ".pdf" (lower output_file))
  then output_file +:+ ".pdf"
  else output_file.

(** [range(a, b)] *)
Definition py_range (a b : Z) : list Z :=
  map (fun k => a + Z.of_nat k) (seq 0 (Z.to_nat (b - a))).

(** ** Range validator and split orchestrator: the loop of [main] *)

(** The [OSError] of an [open] that is refused: no such file or directory
    ([FileNotFoundError]), a path component that is no directory, a
    directory in place of the file, no permission, or another error. *)
Inductive OpenError := ENOENT | ENOTDIR | EISDIR | EACCES | EIO.

Section Orchestrator.

Context {Page : Type}.

Definition Document := list Page.

Inductive RunError :=
| PagesBelowOne (i : nat) (start_page end_page : Z)
| EndBeforeStart (i : nat) (start_page end_page : Z)
| EndExceedsTotal (i : nat) (end_page total_pages : Z)
| IndexError
| OutOfFuel
| OpenFailed (e : OpenError).

(** What exists in the file system, by location, and the [[OK]] lines
    printed so far, each with the path text it names. *)
Record World := {
  files : gmap string Document;
  printed : list (string * Z * Z)
}.

(** The three sanity checks; [None] when none raises. *)
Definition sanity_checks (i : nat) (start_page end_page total_pages : Z)
  : option RunError :=
  if (start_page <? 1) || (end_page <? 1)
  then Some (PagesBelowOne i start_page end_page)
  else if end_page <? start_page
  then Some (EndBeforeStart i start_page end_page)
  else if end_page >? total_pages
  then Some (EndExceedsTotal i end_page total_pages)
  else None.

(** [reader.pages[p]], negative indices counting from the end. *)
Definition pages_getitem (pages : list Page) (p : Z) : option Page :=
  let n := Z.of_nat (length pages) in
  let p := if p <? 0 then p + n else p in
  if (p <? 0) || (n <=? p) then None else nth_error pages (Z.to_nat p).

(** [for p in ...: writer.add_page(reader.pages[p])] *)
Fixpoint add_pages (pages : list Page) (ps : list Z) (writer : Document)
  : option Document :=
  match ps with
  | [] => Some writer
  | p :: rest =>
      match pages_getitem pages p with
      | Some pg => add_pages pages rest (writer ++ [pg])%list
      | None => None
      end
  end.

(** The location that [out_dir / name] denotes. *)
Variable locate : string -> string.

(** [open("wb")] on a location where nothing exists yet: [None] when the
    file is created, else the error raised. *)
Variable open_wb : gmap string Document -> string -> option OpenError.

(** The [while out_path.exists()] loop, run for at most [fuel] tests. *)
Fixpoint avoid_overwriting (fuel : nat) (fs : gmap string Document)
    (original_stem out_path : string) (counter : nat) : option string :=
  match fuel with
  | O => None
  | S fuel' =>
      match fs !! locate out_path with
      | Some _ =>
          avoid_overwriting fuel' fs original_stem
            (suffixed_name original_stem counter) (S counter)
      | None => Some out_path
      end
  end.

(** Tests that always suffice: one per existing file, and two more. *)
Definition enough_fuel (fs : gmap string Document) : nat := S (S (size fs)).

(** Body of the [for i, (start_page, end_page, output_file)] loop. *)
Definition record_body (pages : list Page) (i : nat) (r : range) (w : World)
  : RunError + World :=
  let '(start_page, end_page, output_file) := r in
  match sanity_checks i start_page end_page (Z.of_nat (length pages)) with
  | Some err => inl err
  | None =>
      let output_file := ensure_pdf_suffix output_file in
      match add_pages pages (py_range (start_page - 1) end_page) [] with
      | None => inl IndexError
      | Some writer =>
          match avoid_overwriting (enough_fuel (files w)) (files w)
                  (path_stem output_file) output_file 1 with
          | None => inl OutOfFuel
          | Some out_path =>
              match open_wb (files w) (locate out_path) with
              | Some e => inl (OpenFailed e)
              | None =>
                  inr {| files := <[locate out_path := writer]> (files w);
                         printed := (printed w
                                     ++ [(out_path, start_page, end_page)])%list |}
              end
          end
      end
  end.

(** The record loop from position [i] on.  The world is returned also when
    an exception ends the run. *)
Fixpoint main_loop (pages : list Page) (i : nat) (ranges : list range)
    (w : World) : World * option RunError :=
  match ranges with
  | [] => (w, None)
  | r :: rest =>
      match record_body pages i r w with
      | inl err => (w, Some err)
      | inr w' => main_loop pages (S i) rest w'
      end
  end.

(** [main] once the three paths are known: the master PDF has [pages], the
    table is [file], the file system holds [fs]. *)
Definition main (pages : list Page) (file : CsvFile)
    (fs : gmap string Document) : World * option (ReadError + RunError) :=
  let w := {| files := fs; printed := [] |} in
  match fst (read_ranges_csv file) with
  | inl e => (w, Some (inl e))
  | inr ranges =>
      let '(w', r) := main_loop pages 1 ranges w in
      (w', option_map inr r)
  end.

End Orchestrator.

Arguments Document : clear implicits.
Arguments World : clear implicits.

(** The path texts of the [[OK]] lines of a run, in order. *)
Definition written {Page} (w : World Page) : list string :=
  map (fun l => fst (fst l)) (printed w).

(** ** Vocabulary of the specification *)

(** The stripped cells the parser works on. *)
Definition stripped (row : csv_row) (i : nat) : string := strip (cell row i).

(** The header criteria in the specification's words: a keyword is
    contained in the lowercase form of its cell, or the lowercase cells are,
    as a set, exactly the three keywords. *)
Definition spec_header_criteria (row : csv_row) : Prop :=
  let l0 := lower (stripped row 0) in
  let l1 := lower (stripped row 1) in
  let l2 := lower (stripped row 2) in
  contains "start" l0 = true
  \/ contains "stop" l1 = true
  \/ contains "filename" l2 = true
  \/ (forall t, In t [l0; l1; l2] <-> In t ["start"; "stop"; "filename"]).

(** The preference order of encodings as the specification lists it. *)
Definition spec_encoding_order : list Encoding := [utf_8; utf_8_sig; cp1252].

(** Reading under [enc] ends with a decoding failure. *)
Definition decoding_fails (file : CsvFile) (enc : Encoding) : Prop :=
  exists d, try_encoding file enc = inl (DecodeFailure d).

(** A malformed row and the error it is reported with: too few cells, a
    page field that is no integer, or a blank filename. *)
Inductive malformed_row (r_idx : nat) (row : csv_row) : RowError -> Prop :=
| too_few_cells :
    is_blank_row row = false ->
    (length row < 3)%nat ->
    malformed_row r_idx row (ExpectedThreeColumns r_idx (length row) row)
| non_integer_page :
    is_blank_row row = false ->
    (3 <= length row)%nat ->
    (r_idx =? 1)%nat
      && looks_like_header (stripped row 0) (stripped row 1) (stripped row 2)
      = false ->
    int (stripped row 0) = None \/ int (stripped row 1) = None ->
    malformed_row r_idx row
      (StartStopNotIntegers r_idx (stripped row 0) (stripped row 1))
| blank_filename (start_page end_page : Z) :
    is_blank_row row = false ->
    (3 <= length row)%nat ->
    (r_idx =? 1)%nat
      && looks_like_header (stripped row 0) (stripped row 1) (stripped row 2)
      = false ->
    int (stripped row 0) = Some start_page ->
    int (stripped row 1) = Some end_page ->
    stripped row 2 = "" ->
    malformed_row r_idx row (FilenameBlank r_idx).

(** The row the parser skips as a header. *)
Definition is_header_row (r_idx : nat) (row : csv_row) : bool :=
  (r_idx =? 1)%nat && negb (is_blank_row row) && (3 <=? length row)%nat
  && looks_like_header (stripped row 0) (stripped row 1) (stripped row 2).

(** Number of rows, numbered from [r_idx], that are neither blank nor the
    header row. *)
Fixpoint count_data_rows (r_idx : nat) (input : list csv_row) : nat :=
  match input with
  | [] => O
  | row :: rest =>
      ((if is_blank_row row || is_header_row r_idx row then 0 else 1)
       + count_data_rows (S r_idx) rest)%nat
  end.

(** A validated record. *)
Definition validated (total_pages : Z) (r : range) : Prop :=
  let '(start_page, end_page, _) := r in
  1 <= start_page /\ start_page <= end_page /\ end_page <= total_pages.

(** Pages [start_page] to [end_page] of a document, counted from 1, both
    ends included. *)
Definition page_span {Page} (pages : list Page) (start_page end_page : Z)
  : list Page :=
  firstn (Z.to_nat (end_page - start_page + 1))
         (skipn (Z.to_nat (start_page - 1)) pages).

(** The path a record is written to, in the specification's words: the
    target itself when it is unused, else the target's stem with the first
    suffix [_n], n = 1, 2, ..., whose path is unused. *)
Definition first_unused_path {Page} (locate : string -> string)
    (fs : gmap string (Document Page)) (target out_path : string) : Prop :=
  fs !! locate out_path = None
  /\ ((fs !! locate target = None /\ out_path = target)
      \/ (is_Some (fs !! locate target)
          /\ exists n : nat,
               (1 <= n)%nat
               /\ out_path = suffixed_name (path_stem target) n
               /\ forall j : nat,
                    (1 <= j < n)%nat ->
                    is_Some
                      (fs !! locate (suffixed_name (path_stem target) j)))).

(** Suffixed names of one stem denote different files. *)
Definition suffixes_apart (locate : string -> string) : Prop :=
  forall (stem : string) (n m : nat),
    locate (suffixed_name stem n) = locate (suffixed_name stem m) -> n = m.


(** The normalized names of a table, and their [_1]-suffixed forms. *)
Definition targets (ranges : list range) : list string :=
  map (fun r : range => ensure_pdf_suffix (snd r)) ranges.

Definition suffixed_targets (ranges : list range) : list string :=
  map (fun r : range =>
         suffixed_name (path_stem (ensure_pdf_suffix (snd r))) 1) ranges.

(** ** Sample inputs *)

(** A table in plain ASCII reads the same under every encoding. *)
Definition ascii_table (rows : list csv_row) : CsvFile :=
  fun _ => {| delivered := rows; decode_failure := None |}.

(** A table whose bytes are valid under Windows-1252 only. *)
Definition cp1252_table (rows : list csv_row) : CsvFile :=
  fun enc =>
    match enc with
    | cp1252 => {| delivered := rows; decode_failure := None |}
    | _ => {| delivered := [];
              decode_failure := Some {| ude_encoding := enc; ude_position := 0 |} |}
    end.

(** A table whose bytes no tried encoding decodes. *)
Definition undecodable_table : CsvFile :=
  fun enc =>
    {| delivered := [];
       decode_failure := Some {| ude_encoding := enc; ude_position := 0 |} |}.

(** A run that starts in an empty output directory; pages are numbered. *)
Definition empty_dir : World nat := {| files := ∅; printed := [] |}.

(** An output directory without subdirectories, reached by plain names:
    a plain name is its own location, and a name with a directory part
    cannot be opened, its directory being missing. *)
Definition plain_locate (name : string) : string := name.

Definition flat_open (fs : gmap string (Document nat)) (location : string)
  : option OpenError :=
  if contains "/" location then Some ENOENT else None.

(** A directory in which [a.pdf] exists. *)
Definition taken_dir : World nat :=
  {| files := <["a.pdf" := [7%nat]]> ∅; printed := [] |}.

(** As [plain_locate], with a leading [./] dropped as [pathlib] does. *)
Fixpoint dot_locate (name : string) : string :=
  match name with
  | String "." (String "/" rest) => dot_locate rest
  | _ => name
  end.

(** The table of the program's usage text, with a blank row added, and
    the ranges it parses to. *)
Definition usage_table : CsvFile :=
  ascii_table [["start"; "stop"; "filename"];
               ["1"; "5"; "Introduction"];
               ["6"; "10"; "Chapter1.pdf"];
               [""; " "; ""];
               ["11"; "20"; "Appendix"]].

Definition usage_ranges : list range :=
  [(1, 5, "Introduction"); (6, 10, "Chapter1.pdf"); (11, 20, "Appendix")].

(** ** Operator prompts: [prompt_path] and [prompt_output_dir] *)

(** Stripping by a character test: [lstrip] and [rstrip] are the instances
    at [is_space]. *)
Fixpoint lstrip_by (f : ascii -> bool) (s : string) : string :=
  match s with
  | EmptyString => EmptyString
  | String c t => if f c then lstrip_by f t else s
  end.

Fixpoint rstrip_by (f : ascii -> bool) (s : string) : string :=
  match s with
  | EmptyString => EmptyString
  | String c t =>
      let t' := rstrip_by f t in
      if f c && negb (truthy t') then EmptyString else String c t'
  end.

(** Every character of [s] passes the test. *)
Fixpoint all_chars (f : ascii -> bool) (s : string) : bool :=
  match s with
  | EmptyString => true
  | String c t => f c && all_chars f t
  end.

(** [c in chars] *)
Fixpoint char_in (chars : string) (c : ascii) : bool :=
  match chars with
  | EmptyString => false
  | String d rest => Ascii.eqb c d || char_in rest c
  end.

(** [s.strip(chars)] *)
Definition strip_chars (chars s : string) : string :=
  rstrip_by (char_in chars) (lstrip_by (char_in chars) s).

Definition double_quote : string := String (ascii_of_nat 34) EmptyString.

Definition single_quote : string := "'".

(** [input(prompt).strip().strip(double_quote).strip(single_quote)], for
    the line the operator types. *)
Definition answer (line : string) : string :=
  strip_chars single_quote (strip_chars double_quote (strip line)).

Section Prompts.

(** [pathlib.Path] and the file system are collaborators: a path is built
    from a text, tested, and created as a directory with its parents. *)
Variable PathT : Type.
Variable Path : string -> PathT.
Variable FileSystem : Type.
Variable OSError : Type.
Variable path_exists : FileSystem -> PathT -> bool.
Variable path_is_dir : FileSystem -> PathT -> bool.
Variable mkdir_parents : FileSystem -> PathT -> option OSError * FileSystem.

Inductive PromptError :=
| FileNotFoundError (p : PathT)
| NotADirectoryError (p : PathT)
| MkdirError (e : OSError).

Definition prompt_path (fs : FileSystem) (line : string)
  : PromptError + PathT :=
  let p := Path (answer line) in
  if negb (path_exists fs p) then inl (FileNotFoundError p) else inr p.

Definition prompt_output_dir (fs : FileSystem) (line : string)
  : (PromptError + PathT) * FileSystem :=
  let p := Path (answer line) in
  let '(raised, fs) :=
    if negb (path_exists fs p) then mkdir_parents fs p else (None, fs) in
  match raised with
  | Some e => (inl (MkdirError e), fs)
  | None =>
      if negb (path_is_dir fs p) then (inl (NotADirectoryError p), fs)
      else (inr p, fs)
  end.

End Prompts.

(** ** Declarative reading of a table *)

(** The record a data row stands for, when its page fields are integers
    and its filename is not blank. *)
Definition spec_record (row : csv_row) : option range :=
  match int (stripped row 0), int (stripped row 1) with
  | Some start_page, Some end_page =>
      if truthy (stripped row 2)
      then Some (start_page, end_page, stripped row 2)
      else None
  | _, _ => None
  end.

(** The rows, numbered from [r_idx], that are neither blank nor the header
    row. *)
Fixpoint data_rows (r_idx : nat) (input : list csv_row) : list csv_row :=
  match input with
  | [] => []
  | row :: rest =>
      if is_blank_row row || is_header_row r_idx row
      then data_rows (S r_idx) rest
      else row :: data_rows (S r_idx) rest
  end.

(** An [[OK]] line tells the truth about the directory [fs]: it names the
    pages of a validated record and the file holds those pages. *)
Definition log_entry_ok {Page} (locate : string -> string)
    (pages : list Page) (fs : gmap string (Document Page))
    (entry : string * Z * Z) (r : range) : Prop :=
  let '(out_path, start_page, end_page) := entry in
  (start_page, end_page) = fst r
  /\ validated (Z.of_nat (length pages)) r
  /\ fs !! locate out_path = Some (page_span pages start_page end_page).

(** A small file system for the prompts: a path text is absent, a file
    ([Some false]) or a directory ([Some true]); creating a directory
    always succeeds. *)
Definition SampleFS := string -> option bool.

Definition sample_exists (fs : SampleFS) (p : string) : bool :=
  match fs p with Some _ => true | None => false end.

Definition sample_is_dir (fs : SampleFS) (p : string) : bool :=
  match fs p with Some d => d | None => false end.

Definition sample_mkdir (fs : SampleFS) (p : string)
  : option unit * SampleFS :=
  (None, fun q => if String.eqb q p then Some true else fs q).

Definition sample_disk : SampleFS :=
  fun q => if String.eqb q "in.pdf" then Some false else None.

(** * Properties *)

(** ** Text *)

Lemma append_cons (c : ascii) (s t : string) :
  String c s +:+ t = String c (s +:+ t).
Proof. reflexivity. Qed.

Lemma append_nil_l (t : string) : "" +:+ t = t.
Proof. reflexivity. Qed.

Lemma append_assoc (a b c : string) : (a +:+ b) +:+ c = a +:+ (b +:+ c).
Proof.
  induction a as [|x a IH]; [reflexivity|].
  rewrite !append_cons, IH. reflexivity.
Qed.

Lemma append_length (a b : string) :
  String.length (a +:+ b) = (String.length a + String.length b)%nat.
Proof.
  induction a as [|x a IH]; [reflexivity|].
  rewrite append_cons. cbn [String.length]. rewrite IH. reflexivity.
Qed.

Lemma append_inj_l (a x y : string) : a +:+ x = a +:+ y -> x = y.
Proof.
  induction a as [|c a IH]; [exact (fun H => H)|].
  rewrite !append_cons. intros H. injection H as H. auto.
Qed.

Lemma append_inj_r (x y b : string) : x +:+ b = y +:+ b -> x = y.
Proof.
  revert y. induction x as [|c x IH]; intros [|d y] H.
  - reflexivity.
  - apply (f_equal String.length) in H.
    rewrite append_nil_l, append_cons in H. cbn [String.length] in H.
    rewrite append_length in H. lia.
  - apply (f_equal String.length) in H.
    rewrite append_nil_l, append_cons in H. cbn [String.length] in H.
    rewrite append_length in H. lia.
  - rewrite !append_cons in H. injection H as -> H. f_equal. auto.
Qed.

Lemma lower_append (a b : string) : lower (a +:+ b) = lower a +:+ lower b.
Proof.
  induction a as [|c a IH]; [reflexivity|].
  rewrite append_cons. cbn [lower]. rewrite IH. reflexivity.
Qed.

Lemma endswith_append (suf s : string) : endswith suf (s +:+ suf) = true.
Proof.
  induction s as [|c s IH].
  - rewrite append_nil_l. destruct suf; cbn [endswith];
      rewrite String.eqb_refl; reflexivity.
  - rewrite append_cons. cbn [endswith]. rewrite IH. apply orb_true_r.
Qed.

Lemma endswith_iff (suf s : string) :
  endswith suf s = true <-> exists p, s = p +:+ suf.
Proof.
  split.
  - induction s as [|c s IH]; cbn [endswith]; intros H.
    + rewrite orb_false_r in H. apply String.eqb_eq in H. subst suf.
      exists "". reflexivity.
    + apply orb_true_iff in H. destruct H as [H|H].
      * apply String.eqb_eq in H. exists "". rewrite append_nil_l. auto.
      * destruct (IH H) as [p ->]. exists (String c p). reflexivity.
  - intros [p ->]. apply endswith_append.
Qed.

Lemma str_nat_inj (n m : nat) : str_nat n = str_nat m -> n = m.
Proof.
  unfold str_nat. intros H.
  apply DecimalNat.Unsigned.to_uint_inj.
  assert (Some (Nat.to_uint n) = Some (Nat.to_uint m)) as E.
  { rewrite <- !NilEmpty.usu. rewrite H. reflexivity. }
  congruence.
Qed.

Lemma suffixed_name_inj (stem : string) (n m : nat) :
  suffixed_name stem n = suffixed_name stem m -> n = m.
Proof.
  unfold suffixed_name. intros H.
  apply append_inj_l, append_inj_l, append_inj_r in H.
  apply str_nat_inj, H.
Qed.

Lemma suffixed_name_endswith (stem : string) (n : nat) :
  endswith ".pdf" (lower (suffixed_name stem n)) = true.
Proof.
  unfold suffixed_name. rewrite <- !append_assoc, lower_append.
  change (lower ".pdf") with ".pdf". apply endswith_append.
Qed.

(** ** Parser *)

Lemma rows_loop_app (pre rest : list csv_row) (i : nat) (acc : list range) :
  rows_loop i (pre ++ rest) acc =
  match rows_loop i pre acc with
  | inl e => inl e
  | inr acc' => rows_loop (i + length pre) rest acc'
  end.
Proof.
  revert i acc. induction pre as [|row pre IH]; intros i acc.
  - cbn. f_equal. lia.
  - cbn [app rows_loop length].
    replace (i + S (length pre))%nat with (S i + length pre)%nat by lia.
    destruct (row_body i row); auto.
Qed.

Lemma tokens_issuperset_iff (l0 l1 l2 : string) :
  tokens_issuperset l0 l1 l2 = true <->
  (forall t, In t [l0; l1; l2] <-> In t ["start"; "stop"; "filename"]).
Proof.
  unfold tokens_issuperset. cbn [forallb existsb]. split.
  - rewrite !andb_true_iff, !orb_true_iff, !String.eqb_eq.
    intros [[A|[A|[A|A]]] [[B|[B|[B|B]]] [[C|[C|[C|C]]] _]]];
      subst; try congruence;
      intros t; cbn [In]; tauto.
  - intros H.
    assert (In "start" [l0; l1; l2]) as A by (apply H; cbn; auto).
    assert (In "stop" [l0; l1; l2]) as B by (apply H; cbn; auto).
    assert (In "filename" [l0; l1; l2]) as C by (apply H; cbn; auto).
    cbn in A, B, C.
    rewrite !andb_true_iff, !orb_true_iff, !String.eqb_eq.
    intuition auto.
Qed.

Lemma looks_like_header_iff (row : csv_row) :
  looks_like_header (stripped row 0) (stripped row 1) (stripped row 2) = true
  <-> spec_header_criteria row.
Proof.
  unfold looks_like_header, spec_header_criteria.
  rewrite !orb_true_iff, tokens_issuperset_iff. tauto.
Qed.

Lemma row_body_unfold (r_idx : nat) (row : csv_row) :
  row_body r_idx row =
  if is_blank_row row then Skip
  else if (length row <? 3)%nat
  then Raise (ExpectedThreeColumns r_idx (length row) row)
  else if (r_idx =? 1)%nat
          && looks_like_header (stripped row 0) (stripped row 1) (stripped row 2)
  then Skip
  else match int (stripped row 0), int (stripped row 1) with
       | Some start_page, Some end_page =>
           if negb (truthy (stripped row 2)) then Raise (FilenameBlank r_idx)
           else Append (start_page, end_page, stripped row 2)
       | _, _ =>
           Raise (StartStopNotIntegers r_idx (stripped row 0) (stripped row 1))
       end.
Proof. reflexivity. Qed.

Lemma row_body_skip_iff (r_idx : nat) (row : csv_row) :
  row_body r_idx row = Skip <->
  is_blank_row row || is_header_row r_idx row = true.
Proof.
  rewrite row_body_unfold. unfold is_header_row.
  destruct (is_blank_row row); [cbn; tauto|].
  rewrite orb_false_l, andb_true_r.
  destruct (Nat.ltb_spec (length row) 3) as [L|L].
  - replace (3 <=? length row)%nat with false
      by (symmetry; apply Nat.leb_gt; lia).
    rewrite andb_false_r. cbn. split; discriminate.
  - replace (3 <=? length row)%nat with true
      by (symmetry; apply Nat.leb_le; lia).
    rewrite andb_true_r.
    destruct ((r_idx =? 1)%nat && looks_like_header _ _ _); [tauto|].
    destruct (int (stripped row 0)), (int (stripped row 1));
      try destruct (negb (truthy (stripped row 2))); split; discriminate.
Qed.

Lemma row_body_raise_iff (r_idx : nat) (row : csv_row) (e : RowError) :
  row_body r_idx row = Raise e <-> malformed_row r_idx row e.
Proof.
  rewrite row_body_unfold. split.
  - destruct (is_blank_row row) eqn:B; [discriminate|].
    destruct (Nat.ltb_spec (length row) 3) as [L|L].
    { intros [= <-]. now constructor. }
    destruct ((r_idx =? 1)%nat && looks_like_header _ _ _) eqn:Hd;
      [discriminate|].
    destruct (int (stripped row 0)) eqn:I0, (int (stripped row 1)) eqn:I1;
      try (intros [= <-]; constructor; auto; fail).
    destruct (truthy (stripped row 2)) eqn:T; cbn [negb]; [discriminate|].
    intros [= <-]. econstructor; eauto.
    destruct (stripped row 2); [reflexivity|discriminate].
  - intros M. destruct M as [B L|B L Hd I|s e' B L Hd I0 I1 C2]; rewrite B.
    + replace (length row <? 3)%nat with true
        by (symmetry; apply Nat.ltb_lt; lia). reflexivity.
    + replace (length row <? 3)%nat with false
        by (symmetry; apply Nat.ltb_ge; lia).
      rewrite Hd. destruct I as [-> | ->]; [reflexivity|].
      destruct (int (stripped row 0)); reflexivity.
    + replace (length row <? 3)%nat with false
        by (symmetry; apply Nat.ltb_ge; lia).
      rewrite Hd, I0, I1, C2. reflexivity.
Qed.


(** ** Encoding fallback *)

Lemma encodings_loop_first (file : CsvFile) (failed : list Encoding)
    (enc : Encoding) (rest : list Encoding)
    (last_err : option UnicodeDecodeError) :
  Forall (decoding_fails file) failed ->
  (forall d, try_encoding file enc <> inl (DecodeFailure d)) ->
  encodings_loop file (failed ++ enc :: rest) last_err
  = (try_encoding file enc, (failed ++ [enc])%list).
Proof.
  intros F N. revert last_err.
  induction F as [|x failed [d Hd] _ IH]; intros last_err.
  - cbn [app encodings_loop].
    destruct (try_encoding file enc) as [[e|d|]|rows]; try reflexivity.
    destruct (N d). reflexivity.
  - cbn [app encodings_loop]. rewrite Hd, IH. reflexivity.
Qed.

Lemma encodings_loop_opened (file : CsvFile) (encs : list Encoding)
    (last_err : option UnicodeDecodeError) (x : Encoding) :
  In x (removelast (snd (encodings_loop file encs last_err))) ->
  decoding_fails file x.
Proof.
  revert last_err. induction encs as [|enc rest IH]; intros last_err.
  - cbn. tauto.
  - cbn [encodings_loop].
    destruct (try_encoding file enc) as [[e|d|]|rows] eqn:T;
      try (cbn; tauto).
    specialize (IH (Some d)).
    destruct (encodings_loop file rest (Some d)) as [res opened].
    cbn [snd] in *. destruct opened as [|o opened]; [cbn; tauto|].
    change (removelast (enc :: o :: opened))
      with (enc :: removelast (o :: opened)).
    intros [<-|H]; [exists d; exact T | auto].
Qed.

Lemma encodings_loop_inr (file : CsvFile) (encs : list Encoding)
    (last_err : option UnicodeDecodeError) (rows : list range)
    (opened : list Encoding) :
  encodings_loop file encs last_err = (inr rows, opened) ->
  exists pre enc,
    opened = (pre ++ [enc])%list /\ try_encoding file enc = inr rows.
Proof.
  revert last_err opened. induction encs as [|enc rest IH];
    intros last_err opened.
  - cbn. destruct last_err; discriminate.
  - cbn [encodings_loop].
    destruct (try_encoding file enc) as [[e|d|]|rs] eqn:T; try discriminate.
    + destruct (encodings_loop file rest (Some d)) as [res op] eqn:L.
      intros [= -> <-]. destruct (IH _ _ L) as (pre & enc' & -> & T').
      exists (enc :: pre), enc'. auto.
    + intros [= <- <-]. exists [], enc. auto.
Qed.

(** ** Claims about the parser *)

Lemma row_body_skip_spec (r_idx : nat) (row : csv_row) :
  row_body r_idx row = Skip <->
  is_blank_row row = true
  \/ (r_idx = 1%nat /\ (3 <= length row)%nat /\ spec_header_criteria row).
Proof.
  rewrite row_body_skip_iff, <- looks_like_header_iff. unfold is_header_row.
  rewrite orb_true_iff, !andb_true_iff, Nat.eqb_eq, Nat.leb_le,
    negb_true_iff.
  destruct (is_blank_row row); intuition congruence.
Qed.

Lemma row_body_append_inv (r_idx : nat) (row : csv_row) (r : range) :
  row_body r_idx row = Append r ->
  exists start_page end_page,
    int (stripped row 0) = Some start_page
    /\ int (stripped row 1) = Some end_page
    /\ r = (start_page, end_page, stripped row 2).
Proof.
  rewrite row_body_unfold.
  destruct (is_blank_row row); [discriminate|].
  destruct (length row <? 3)%nat; [discriminate|].
  destruct ((r_idx =? 1)%nat && looks_like_header _ _ _); [discriminate|].
  destruct (int (stripped row 0)) as [s|]; [|discriminate].
  destruct (int (stripped row 1)) as [e|]; [|discriminate].
  destruct (negb (truthy (stripped row 2))); [discriminate|].
  intros [= <-]. eauto.
Qed.

(** C3 (as amended): only the physical first row of the file, the row
    numbered 1, is tested against the header criteria.  The loop body
    skips a row exactly when it is blank, or when it is row 1, has at
    least three cells and meets a criterion: the first cell's lowercase
    form contains "start", the second's contains "stop", the third's
    contains "filename", or the lowercase cells are as a set the three
    keywords.  The row loop numbers the rows as they stand in the file,
    blank rows counted: it skips such a first row, and a non-blank row
    that is not the first row of the file is never skipped, whatever it
    holds and also when every row before it is blank; it raises its error
    or gives its record. *)
Theorem header_test_on_physical_first_row :
  (forall (r_idx : nat) (row : csv_row),
      row_body r_idx row = Skip <->
      is_blank_row row = true
      \/ (r_idx = 1%nat /\ (3 <= length row)%nat
          /\ spec_header_criteria row))
  /\ (forall (row : csv_row) (rest : list csv_row),
        is_blank_row row = false ->
        (3 <= length row)%nat ->
        spec_header_criteria row ->
        rows_loop 1 (row :: rest) [] = rows_loop 2 rest [])
  /\ (forall (pre : list csv_row) (row : csv_row) (post : list csv_row)
             (acc : list range),
        pre <> [] ->
        is_blank_row row = false ->
        rows_loop 1 pre [] = inr acc ->
        (exists e,
            malformed_row (S (length pre)) row e
            /\ rows_loop 1 (pre ++ row :: post) [] = inl e)
        \/ (exists start_page end_page,
               int (stripped row 0) = Some start_page
               /\ int (stripped row 1) = Some end_page
               /\ rows_loop 1 (pre ++ row :: post) []
                  = rows_loop (S (S (length pre))) post
                      (acc ++ [(start_page, end_page, stripped row 2)])%list)).
Proof.
  split; [exact row_body_skip_spec|]. split.
  - intros row rest B L H. cbn [rows_loop].
    assert (row_body 1 row = Skip) as -> by (apply row_body_skip_spec; auto).
    reflexivity.
  - intros pre row post acc Hpre B P.
    rewrite rows_loop_app, P. cbn [rows_loop Nat.add].
    destruct (row_body (S (length pre)) row) as [|e|r] eqn:R.
    + apply row_body_skip_spec in R. destruct R as [R|[R _]];
        [congruence|].
      destruct pre; [contradiction | discriminate].
    + left. exists e. split; [now apply row_body_raise_iff | reflexivity].
    + right. destruct (row_body_append_inv _ _ _ R) as (s & e & I0 & I1 & ->).
      exists s, e. auto.
Qed.

Lemma header_test_on_physical_first_row_witness :
  (exists e,
      malformed_row (S (length [[]; [" "]])) ["start"; "stop"; "filename"] e
      /\ rows_loop 1 ([[]; [" "]] ++ ["start"; "stop"; "filename"] :: [])%list []
         = inl e)
  \/ (exists start_page end_page,
         int (stripped ["start"; "stop"; "filename"] 0) = Some start_page
         /\ int (stripped ["start"; "stop"; "filename"] 1) = Some end_page
         /\ rows_loop 1
              ([[]; [" "]] ++ ["start"; "stop"; "filename"] :: [])%list []
            = rows_loop (S (S (length [[]; [" "]]))) []
                ([] ++ [(start_page, end_page,
                         stripped ["start"; "stop"; "filename"] 2)])%list).
Proof.
  apply (proj2 (proj2 header_test_on_physical_first_row)
           [[]; [" "]] ["start"; "stop"; "filename"] [] []).
  - discriminate.
  - reflexivity.
  - reflexivity.
Defined.

(** C3, counterexample: the first row is blank and the second row, the
    first non-blank one, has "filename" in its third cell; it is not
    skipped but parsed into a record. *)
Lemma header_after_blank_row_is_data :
  is_blank_row [] = true
  /\ is_blank_row ["1"; "2"; "filename.pdf"] = false
  /\ contains "filename" (lower (stripped ["1"; "2"; "filename.pdf"] 2)) = true
  /\ fst (read_ranges_csv (ascii_table [[]; ["1"; "2"; "filename.pdf"]]))
     = inr [(1, 2, "filename.pdf")].
Proof. repeat split; reflexivity. Qed.

(** C8 (as amended): the column count is checked on every non-blank row,
    the first row included, before the header test.  When the rows before
    it raise nothing, a non-blank row with fewer than three cells makes
    the parser fail with the error that carries the row number and the
    row. *)
Theorem short_row_raises_column_error (file : CsvFile) (enc : Encoding)
    (pre : list csv_row) (row : csv_row) (post : list csv_row)
    (acc : list range) :
  delivered (file enc) = (pre ++ row :: post)%list ->
  rows_loop 1 pre [] = inr acc ->
  is_blank_row row = false ->
  (length row < 3)%nat ->
  try_encoding file enc
  = inl (RowFailure
           (ExpectedThreeColumns (S (length pre)) (length row) row)).
Proof.
  intros D P B L. unfold try_encoding.
  rewrite D, rows_loop_app, P. cbn [rows_loop Nat.add].
  assert (row_body (S (length pre)) row
          = Raise (ExpectedThreeColumns (S (length pre)) (length row) row))
    as -> by (apply row_body_raise_iff; now constructor).
  reflexivity.
Qed.

Lemma short_row_raises_column_error_witness :
  try_encoding (ascii_table [["start"]]) utf_8_sig
  = inl (RowFailure (ExpectedThreeColumns 1 1 ["start"])).
Proof.
  apply (short_row_raises_column_error
           (ascii_table [["start"]]) utf_8_sig [] ["start"] [] []).
  - reflexivity.
  - reflexivity.
  - reflexivity.
  - cbn. lia.
Defined.

(** C8, counterexample: a first row whose only cell is "start" meets the
    first header criterion and is reported as a column-count error. *)
Lemma short_header_row_is_rejected :
  contains "start" (lower (stripped ["start"] 0)) = true
  /\ rows_loop 1 [["start"]] [] = inl (ExpectedThreeColumns 1 1 ["start"])
  /\ fst (read_ranges_csv (ascii_table [["start"]]))
     = inl (RowFailure (ExpectedThreeColumns 1 1 ["start"])).
Proof. repeat split; reflexivity. Qed.

(** C7 (as amended): the encodings are tried in the order UTF-8 with
    marker, UTF-8, Windows-1252.  The outcome is that of the first
    encoding whose reading does not end in a decoding failure, and no
    later encoding is opened; when all three end in a decoding failure the
    last failure is raised. *)
Theorem encodings_tried_in_order (file : CsvFile) :
  encodings_to_try = [utf_8_sig; utf_8; cp1252]
  /\ (forall failed enc rest,
        encodings_to_try = (failed ++ enc :: rest)%list ->
        Forall (decoding_fails file) failed ->
        (forall d, try_encoding file enc <> inl (DecodeFailure d)) ->
        read_ranges_csv file = (try_encoding file enc, (failed ++ [enc])%list))
  /\ (forall d1 d2 d3,
        try_encoding file utf_8_sig = inl (DecodeFailure d1) ->
        try_encoding file utf_8 = inl (DecodeFailure d2) ->
        try_encoding file cp1252 = inl (DecodeFailure d3) ->
        read_ranges_csv file = (inl (DecodeFailure d3), encodings_to_try)).
Proof.
  split; [reflexivity|]. split.
  - intros failed enc rest E F N. unfold read_ranges_csv. rewrite E.
    now apply encodings_loop_first.
  - intros d1 d2 d3 H1 H2 H3. unfold read_ranges_csv, encodings_to_try.
    cbn [encodings_loop]. rewrite H1, H2, H3. reflexivity.
Qed.

Lemma encodings_tried_in_order_witness :
  read_ranges_csv (cp1252_table [["1"; "5"; "Intro"]])
  = (inr [(1, 5, "Intro")], [utf_8_sig; utf_8; cp1252])
  /\ read_ranges_csv undecodable_table
     = (inl (DecodeFailure {| ude_encoding := cp1252; ude_position := 0 |}),
        [utf_8_sig; utf_8; cp1252]).
Proof.
  split.
  - apply (proj1 (proj2 (encodings_tried_in_order
                           (cp1252_table [["1"; "5"; "Intro"]])))
             [utf_8_sig; utf_8] cp1252 []).
    + reflexivity.
    + repeat constructor; eexists; reflexivity.
    + intros d. discriminate.
  - apply (proj2 (proj2 (encodings_tried_in_order undecodable_table))
             {| ude_encoding := utf_8_sig; ude_position := 0 |}
             {| ude_encoding := utf_8; ude_position := 0 |});
      reflexivity.
Defined.

(** C7, counterexample: the order is not the one the claim gives.  A plain
    ASCII table is read under UTF-8 with marker, the first encoding
    tried, and under no other. *)
Lemma utf_8_sig_is_tried_first :
  encodings_to_try <> spec_encoding_order
  /\ hd_error encodings_to_try = Some utf_8_sig
  /\ read_ranges_csv (ascii_table [["1"; "5"; "Intro"]])
     = (inr [(1, 5, "Intro")], [utf_8_sig]).
Proof. split; [discriminate | split; reflexivity]. Qed.

(** C10: when the encodings tried before [enc] end in a decoding failure
    and the rows read under [enc] contain a malformed row after rows that
    raise nothing, the row's error is what the parser raises and [enc] is
    the last encoding opened.  Every encoding but the last one opened
    ended in a decoding failure. *)
Theorem malformed_row_stops_fallback (file : CsvFile)
    (failed : list Encoding) (enc : Encoding) (rest : list Encoding)
    (pre : list csv_row) (row : csv_row) (post : list csv_row)
    (acc : list range) (e : RowError) :
  encodings_to_try = (failed ++ enc :: rest)%list ->
  Forall (decoding_fails file) failed ->
  delivered (file enc) = (pre ++ row :: post)%list ->
  rows_loop 1 pre [] = inr acc ->
  malformed_row (S (length pre)) row e ->
  read_ranges_csv file = (inl (RowFailure e), (failed ++ [enc])%list)
  /\ (forall x, In x (removelast (snd (read_ranges_csv file))) ->
                decoding_fails file x).
Proof.
  intros E F D P M. split; [|intros x; apply encodings_loop_opened].
  assert (try_encoding file enc = inl (RowFailure e)) as T.
  { unfold try_encoding. rewrite D, rows_loop_app, P.
    cbn [rows_loop Nat.add]. apply row_body_raise_iff in M. now rewrite M. }
  unfold read_ranges_csv. rewrite E, <- T.
  apply encodings_loop_first; [exact F|]. rewrite T. discriminate.
Qed.

Lemma malformed_row_stops_fallback_witness :
  read_ranges_csv (cp1252_table [["1"; "5"; "Intro"]; ["1"; "x"; "out"]])
  = (inl (RowFailure (StartStopNotIntegers 2 "1" "x")),
     [utf_8_sig; utf_8; cp1252])
  /\ read_ranges_csv (ascii_table [["1"; "x"; "out"]; ["2"; "3"; "b"]])
     = (inl (RowFailure (StartStopNotIntegers 1 "1" "x")), [utf_8_sig]).
Proof.
  split.
  - apply (malformed_row_stops_fallback
             (cp1252_table [["1"; "5"; "Intro"]; ["1"; "x"; "out"]])
             [utf_8_sig; utf_8] cp1252 []
             [["1"; "5"; "Intro"]] ["1"; "x"; "out"] [] [(1, 5, "Intro")]).
    + reflexivity.
    + repeat constructor; eexists; reflexivity.
    + reflexivity.
    + reflexivity.
    + apply (non_integer_page 2 ["1"; "x"; "out"]);
        [reflexivity | cbn; lia | reflexivity | right; reflexivity].
  - apply (malformed_row_stops_fallback
             (ascii_table [["1"; "x"; "out"]; ["2"; "3"; "b"]])
             [] utf_8_sig [utf_8; cp1252]
             [] ["1"; "x"; "out"] [["2"; "3"; "b"]] []).
    + reflexivity.
    + constructor.
    + reflexivity.
    + reflexivity.
    + apply (non_integer_page 1 ["1"; "x"; "out"]);
        [reflexivity | cbn; lia | reflexivity | right; reflexivity].
Defined.

(** ** Validator and page extraction *)

Lemma sanity_checks_None (i : nat) (start_page end_page total_pages : Z) :
  sanity_checks i start_page end_page total_pages = None <->
  1 <= start_page /\ start_page <= end_page /\ end_page <= total_pages.
Proof.
  unfold sanity_checks. rewrite Z.gtb_ltb.
  destruct (Z.ltb_spec start_page 1), (Z.ltb_spec end_page 1),
    (Z.ltb_spec end_page start_page), (Z.ltb_spec total_pages end_page);
    cbn; split; try discriminate; try lia; auto.
Qed.

Section Extraction.

Context {Page : Type}.
Implicit Types (pages : list Page) (writer : Document Page).

Lemma skipn_nth_error pages (k : nat) (pg : Page) :
  nth_error pages k = Some pg -> skipn k pages = pg :: skipn (S k) pages.
Proof.
  revert k. induction pages as [|x pages IH]; intros [|k]; cbn;
    try discriminate.
  - intros [= ->]. reflexivity.
  - intros H. rewrite (IH _ H). reflexivity.
Qed.

Lemma pages_getitem_nat pages (k : nat) :
  (k < length pages)%nat ->
  pages_getitem pages (Z.of_nat k) = nth_error pages k.
Proof.
  intros L. unfold pages_getitem.
  destruct (Z.ltb_spec (Z.of_nat k) 0); [lia|].
  destruct (Z.ltb_spec (Z.of_nat k) 0); [lia|].
  destruct (Z.leb_spec (Z.of_nat (length pages)) (Z.of_nat k)); [lia|].
  cbn. rewrite Nat2Z.id. reflexivity.
Qed.

Lemma add_pages_seq pages (k n : nat) writer :
  (k + n <= length pages)%nat ->
  add_pages pages (map Z.of_nat (seq k n)) writer
  = Some (writer ++ firstn n (skipn k pages))%list.
Proof.
  revert k writer. induction n as [|n IH]; intros k writer L.
  - cbn. rewrite app_nil_r. reflexivity.
  - cbn [seq map add_pages]. rewrite pages_getitem_nat by lia.
    destruct (nth_error pages k) as [pg|] eqn:N.
    + rewrite IH by lia. rewrite (skipn_nth_error _ _ _ N).
      cbn [firstn]. rewrite <- app_assoc. reflexivity.
    + apply nth_error_None in N. lia.
Qed.

Lemma py_range_shift (a s n : nat) :
  map (fun k => Z.of_nat a + Z.of_nat k) (seq s n)
  = map Z.of_nat (seq (a + s) n).
Proof.
  revert s. induction n as [|n IH]; intros s; [reflexivity|].
  cbn [seq map]. rewrite IH. f_equal; [lia|].
  replace (a + S s)%nat with (S (a + s)) by lia. reflexivity.
Qed.

Lemma py_range_nat (a : nat) (b : Z) :
  py_range (Z.of_nat a) b
  = map Z.of_nat (seq a (Z.to_nat (b - Z.of_nat a))).
Proof.
  unfold py_range. rewrite py_range_shift, Nat.add_0_r. reflexivity.
Qed.

Lemma add_pages_validated pages (start_page end_page : Z) :
  1 <= start_page -> start_page <= end_page ->
  end_page <= Z.of_nat (length pages) ->
  add_pages pages (py_range (start_page - 1) end_page) []
  = Some (page_span pages start_page end_page).
Proof.
  intros A B C. unfold page_span.
  remember (Z.to_nat (start_page - 1)) as a eqn:Ea.
  assert (start_page - 1 = Z.of_nat a) as -> by lia.
  rewrite py_range_nat, add_pages_seq by lia.
  cbn [app]. do 2 f_equal. lia.
Qed.

Lemma page_span_length pages (start_page end_page : Z) :
  1 <= start_page -> start_page <= end_page ->
  end_page <= Z.of_nat (length pages) ->
  Z.of_nat (length (page_span pages start_page end_page))
  = end_page - start_page + 1.
Proof.
  intros A B C. unfold page_span. rewrite length_firstn, length_skipn. lia.
Qed.

Lemma page_span_nth pages (start_page end_page : Z) (k : nat) :
  1 <= start_page ->
  Z.of_nat k < end_page - start_page + 1 ->
  nth_error (page_span pages start_page end_page) k
  = nth_error pages (Z.to_nat (start_page - 1) + k).
Proof.
  intros A B. unfold page_span. rewrite nth_error_firstn, nth_error_skipn.
  destruct (Nat.ltb_spec k (Z.to_nat (end_page - start_page + 1)));
    [reflexivity | lia].
Qed.

End Extraction.

(** ** Claims about the validator *)

(** C4 (as amended): the validator applies the checks [start_page >= 1]
    and [end_page >= 1], then [end_page >= start_page], then
    [end_page <= total_pages], and raises on the first that fails.  A
    record with [end_page = total_pages + 1] fails, a record with
    [start_page = 0] fails, and a record with
    [start_page = end_page = total_pages] passes when the document has at
    least one page. *)
Theorem sanity_checks_in_order (i : nat) (start_page end_page total_pages : Z) :
  (start_page < 1 \/ end_page < 1 ->
   sanity_checks i start_page end_page total_pages
   = Some (PagesBelowOne i start_page end_page))
  /\ (1 <= start_page -> 1 <= end_page -> end_page < start_page ->
      sanity_checks i start_page end_page total_pages
      = Some (EndBeforeStart i start_page end_page))
  /\ (1 <= start_page -> start_page <= end_page -> total_pages < end_page ->
      sanity_checks i start_page end_page total_pages
      = Some (EndExceedsTotal i end_page total_pages))
  /\ (1 <= start_page -> start_page <= end_page -> end_page <= total_pages ->
      sanity_checks i start_page end_page total_pages = None)
  /\ (1 <= total_pages ->
      sanity_checks i total_pages total_pages total_pages = None)
  /\ sanity_checks i start_page (total_pages + 1) total_pages <> None
  /\ sanity_checks i 0 end_page total_pages <> None.
Proof.
  unfold sanity_checks. rewrite !Z.gtb_ltb.
  repeat split; intros;
    repeat match goal with
      | |- context [?a <? ?b] => destruct (Z.ltb_spec a b)
      end; cbn; try reflexivity; try discriminate; lia.
Qed.

Lemma sanity_checks_in_order_witness :
  sanity_checks 1 20 20 20 = None
  /\ sanity_checks 1 0 5 20 = Some (PagesBelowOne 1 0 5)
  /\ sanity_checks 1 5 2 20 = Some (EndBeforeStart 1 5 2)
  /\ sanity_checks 1 5 21 20 = Some (EndExceedsTotal 1 21 20).
Proof.
  split; [|split; [|split]].
  - apply (proj1 (proj2 (proj2 (proj2 (proj2
             (sanity_checks_in_order 1 20 20 20)))))). lia.
  - apply (proj1 (sanity_checks_in_order 1 0 5 20)). lia.
  - apply (proj1 (proj2 (sanity_checks_in_order 1 5 2 20))); lia.
  - apply (proj1 (proj2 (proj2 (sanity_checks_in_order 1 5 21 20)))); lia.
Defined.

(** C4, counterexample: in a document without pages the record with
    [start_page = end_page = total_pages = 0] fails the first check. *)
Lemma empty_document_boundary_fails :
  Z.of_nat (length (@nil nat)) = 0
  /\ sanity_checks 1 0 0 0 = Some (PagesBelowOne 1 0 0)
  /\ snd (main plain_locate flat_open (@nil nat)
            (ascii_table [["0"; "0"; "x"]]) ∅)
     = Some (inr (PagesBelowOne 1 0 0)).
Proof. vm_compute. repeat split. Qed.

(** ** Stripping *)

Lemma lstrip_as_by (s : string) : lstrip s = lstrip_by is_space s.
Proof. induction s as [|c t IH]; cbn; [|rewrite IH]; reflexivity. Qed.

Lemma rstrip_as_by (s : string) : rstrip s = rstrip_by is_space s.
Proof. induction s as [|c t IH]; cbn; [|rewrite IH]; reflexivity. Qed.

Lemma truthy_append_r (a b : string) :
  truthy b = true -> truthy (a +:+ b) = true.
Proof. destruct a; [rewrite append_nil_l; auto | reflexivity]. Qed.

Section StripBy.

Variable f : ascii -> bool.

Lemma lstrip_by_head (s : string) :
  lstrip_by f s = ""
  \/ exists c t, lstrip_by f s = String c t /\ f c = false.
Proof.
  induction s as [|c t IH]; cbn [lstrip_by]; [auto|].
  destruct (f c) eqn:E; [exact IH | eauto].
Qed.

Lemma lstrip_by_fixed (s : string) :
  lstrip_by f s = s ->
  s = "" \/ exists c t, s = String c t /\ f c = false.
Proof.
  intros H. destruct (lstrip_by_head s) as [E|(c & t & E & F)];
    rewrite H in E; eauto.
Qed.

Lemma lstrip_by_idem (s : string) :
  lstrip_by f (lstrip_by f s) = lstrip_by f s.
Proof.
  destruct (lstrip_by_head s) as [->|(c & t & -> & F)]; [reflexivity|].
  cbn [lstrip_by]. rewrite F. reflexivity.
Qed.

Lemma rstrip_by_idem (s : string) :
  rstrip_by f (rstrip_by f s) = rstrip_by f s.
Proof.
  induction s as [|c t IH]; [reflexivity|]. cbn [rstrip_by].
  destruct (f c && negb (truthy (rstrip_by f t))) eqn:E; [reflexivity|].
  cbn [rstrip_by]. rewrite IH, E. reflexivity.
Qed.

Lemma lstrip_rstrip_by (s : string) :
  lstrip_by f s = s ->
  lstrip_by f (rstrip_by f s) = rstrip_by f s.
Proof.
  intros H. destruct (lstrip_by_fixed s H) as [->|(c & t & -> & F)];
    [reflexivity|].
  cbn [rstrip_by]. rewrite F. cbn [andb lstrip_by]. rewrite F. reflexivity.
Qed.

Lemma strip_by_idem (s : string) :
  rstrip_by f (lstrip_by f (rstrip_by f (lstrip_by f s)))
  = rstrip_by f (lstrip_by f s).
Proof.
  rewrite lstrip_rstrip_by by apply lstrip_by_idem. apply rstrip_by_idem.
Qed.

Lemma lstrip_by_app_all (pre s : string) :
  all_chars f pre = true -> lstrip_by f (pre +:+ s) = lstrip_by f s.
Proof.
  induction pre as [|c pre IH]; [reflexivity|].
  cbn [all_chars]. intros H. apply andb_true_iff in H. destruct H as [C A].
  rewrite append_cons. cbn [lstrip_by]. rewrite C. auto.
Qed.

Lemma rstrip_by_all (post : string) :
  all_chars f post = true -> rstrip_by f post = "".
Proof.
  induction post as [|c post IH]; [reflexivity|].
  cbn [all_chars]. intros H. apply andb_true_iff in H. destruct H as [C A].
  cbn [rstrip_by]. rewrite (IH A), C. reflexivity.
Qed.

Lemma rstrip_by_app_all (s post : string) :
  all_chars f post = true -> rstrip_by f (s +:+ post) = rstrip_by f s.
Proof.
  intros A. induction s as [|c s IH].
  - rewrite append_nil_l. now apply rstrip_by_all.
  - rewrite append_cons. cbn [rstrip_by]. rewrite IH. reflexivity.
Qed.

Lemma rstrip_by_app_fixed (a b : string) :
  truthy b = true -> rstrip_by f b = b ->
  rstrip_by f (a +:+ b) = a +:+ b.
Proof.
  intros T H. induction a as [|c a IH]; [exact H|].
  rewrite append_cons. cbn [rstrip_by].
  rewrite IH, (truthy_append_r a b T), andb_false_r. reflexivity.
Qed.

End StripBy.

Lemma strip_idem (s : string) : strip (strip s) = strip s.
Proof.
  unfold strip. rewrite !rstrip_as_by, !lstrip_as_by. apply strip_by_idem.
Qed.

(** ** The parser read declaratively *)

Lemma short_row_has_no_record (row : csv_row) :
  (length row < 3)%nat -> spec_record row = None.
Proof.
  intros L. unfold spec_record, stripped, cell.
  rewrite (nth_overflow row "" (n := 2)) by lia.
  change (strip "") with "". cbn [truthy].
  destruct (int (strip (nth 0 row ""))), (int (strip (nth 1 row "")));
    reflexivity.
Qed.

(** What the loop body does with a row that is not skipped. *)
Lemma row_body_data_row (r_idx : nat) (row : csv_row) :
  is_blank_row row || is_header_row r_idx row = false ->
  match spec_record row with
  | Some r => row_body r_idx row = Append r
  | None => exists e, row_body r_idx row = Raise e
  end.
Proof.
  intros N. apply orb_false_iff in N. destruct N as [B H].
  unfold is_header_row in H. rewrite B in H. cbn [negb] in H.
  rewrite andb_true_r in H. rewrite row_body_unfold, B.
  destruct (Nat.ltb_spec (length row) 3) as [L|L].
  { rewrite short_row_has_no_record by exact L. eauto. }
  replace (3 <=? length row)%nat with true in H
    by (symmetry; apply Nat.leb_le; lia).
  rewrite andb_true_r in H. rewrite H. unfold spec_record.
  destruct (int (stripped row 0)), (int (stripped row 1)); eauto.
  destruct (truthy (stripped row 2)); cbn [negb]; eauto.
Qed.

Lemma rows_loop_records (input : list csv_row) (i : nat)
    (acc rows : list range) :
  rows_loop i input acc = inr rows ->
  exists l,
    rows = (acc ++ l)%list
    /\ map spec_record (data_rows i input) = map Some l.
Proof.
  revert i acc. induction input as [|row rest IH]; intros i acc.
  - cbn. intros [= <-]. exists []. rewrite app_nil_r. auto.
  - cbn [rows_loop data_rows].
    destruct (is_blank_row row || is_header_row i row) eqn:S.
    + apply row_body_skip_iff in S. rewrite S. apply IH.
    + pose proof (row_body_data_row i row S) as D.
      destruct (spec_record row) as [r|] eqn:R.
      * rewrite D. intros H. destruct (IH _ _ H) as (l & -> & M).
        exists (r :: l). rewrite <- app_assoc. cbn [map]. rewrite R, M. auto.
      * destruct D as [e ->]. discriminate.
Qed.

Lemma rows_loop_of_records (input : list csv_row) (i : nat)
    (acc l : list range) :
  map spec_record (data_rows i input) = map Some l ->
  rows_loop i input acc = inr (acc ++ l)%list.
Proof.
  revert i acc l. induction input as [|row rest IH]; intros i acc l.
  - cbn. destruct l; [|discriminate]. rewrite app_nil_r. reflexivity.
  - cbn [rows_loop data_rows].
    destruct (is_blank_row row || is_header_row i row) eqn:S.
    + apply row_body_skip_iff in S. rewrite S. apply IH.
    + pose proof (row_body_data_row i row S) as D.
      cbn [map]. destruct l as [|r l]; [discriminate|].
      cbn [map]. intros [= R M]. rewrite R in D. rewrite D.
      rewrite (IH _ _ _ M), <- app_assoc. reflexivity.
Qed.

Lemma try_encoding_inr (file : CsvFile) (enc : Encoding)
    (rows : list range) :
  try_encoding file enc = inr rows <->
  rows_loop 1 (delivered (file enc)) [] = inr rows
  /\ decode_failure (file enc) = None.
Proof.
  unfold try_encoding.
  destruct (rows_loop 1 (delivered (file enc)) []) as [e|l];
    destruct (decode_failure (file enc)); split;
    try discriminate; try (intros [? ?]; discriminate).
  - intros [= ->]. auto.
  - intros [[= ->] _]. reflexivity.
Qed.

Lemma spec_record_name (row : csv_row) (r : range) :
  spec_record row = Some r ->
  truthy (snd r) = true /\ strip (snd r) = snd r.
Proof.
  unfold spec_record.
  destruct (int (stripped row 0)), (int (stripped row 1)); try discriminate.
  destruct (truthy (stripped row 2)) eqn:T; [|discriminate].
  intros [= <-]. cbn [snd]. split; [exact T|]. apply strip_idem.
Qed.

Lemma data_rows_later_rows (input : list csv_row) (i j : nat) :
  (2 <= i)%nat -> (2 <= j)%nat ->
  data_rows i input
  = data_rows j (List.filter (fun row => negb (is_blank_row row)) input).
Proof.
  revert i j. induction input as [|row rest IH]; intros i j Hi Hj;
    [reflexivity|].
  cbn [data_rows List.filter]. unfold is_header_row at 1.
  replace (i =? 1)%nat with false by (symmetry; apply Nat.eqb_neq; lia).
  cbn [andb]. rewrite orb_false_r.
  destruct (is_blank_row row) eqn:B; cbn [negb].
  - apply IH; lia.
  - cbn [data_rows]. unfold is_header_row at 1.
    replace (j =? 1)%nat with false by (symmetry; apply Nat.eqb_neq; lia).
    rewrite B. cbn [andb orb]. f_equal. apply IH; lia.
Qed.

(** X1: every record the parser returns has an output name that is not
    empty and carries no surrounding whitespace, so the [strip] of the
    writing loop leaves it as it is. *)
Theorem parsed_names_are_trimmed (file : CsvFile) (ranges : list range) :
  fst (read_ranges_csv file) = inr ranges ->
  Forall (fun r : range => truthy (snd r) = true /\ strip (snd r) = snd r)
         ranges.
Proof.
  intros R. destruct (read_ranges_csv file) as [res opened] eqn:E.
  cbn [fst] in R. subst res.
  destruct (encodings_loop_inr _ _ _ _ _ E) as (pre & enc & _ & T).
  apply try_encoding_inr in T. destruct T as [P _].
  destruct (rows_loop_records _ _ _ _ P) as (l & -> & M).
  cbn [app]. clear P E.
  revert l M. induction (data_rows 1 (delivered (file enc))) as [|row d IH];
    intros [|r l]; try discriminate; [constructor|].
  cbn [map]. intros [= R M]. constructor; [|auto].
  now apply (spec_record_name row).
Qed.

Lemma parsed_names_are_trimmed_witness :
  Forall (fun r : range => truthy (snd r) = true /\ strip (snd r) = snd r)
         usage_ranges.
Proof.
  apply (parsed_names_are_trimmed usage_table usage_ranges). reflexivity.
Defined.

(** X2: the parser succeeds exactly when every row that is neither blank
    nor the header row has integer page fields and a non-blank filename,
    and it then returns the records of those rows in row order. *)
Theorem records_follow_data_rows (input : list csv_row) (rows : list range) :
  rows_loop 1 input [] = inr rows <->
  map spec_record (data_rows 1 input) = map Some rows.
Proof.
  split.
  - intros P. destruct (rows_loop_records _ _ _ _ P) as (l & -> & M).
    exact M.
  - intros M. apply (rows_loop_of_records input 1 [] rows M).
Qed.

(** X3: blank rows after the first row do not change what a table parses
    to: the table and the table without them yield the same records. *)
Theorem later_blank_rows_are_ignored (first : csv_row) (rest : list csv_row)
    (rows : list range) :
  rows_loop 1 (first :: rest) [] = inr rows <->
  rows_loop 1
    (first :: List.filter (fun row => negb (is_blank_row row)) rest) []
  = inr rows.
Proof.
  assert (data_rows 1 (first :: rest)
          = data_rows 1
              (first :: List.filter (fun row => negb (is_blank_row row)) rest))
    as D.
  { cbn [data_rows]. rewrite (data_rows_later_rows rest 2 2) by lia.
    reflexivity. }
  split; intros P.
  - destruct (rows_loop_records _ _ _ _ P) as (l & -> & M).
    rewrite D in M. apply (rows_loop_of_records _ 1 [] l M).
  - destruct (rows_loop_records _ _ _ _ P) as (l & -> & M).
    rewrite <- D in M. apply (rows_loop_of_records _ 1 [] l M).
Qed.

(** X4: the parser never raises the [RuntimeError] of its last line, and
    the encodings it opens are a non-empty initial part of the list of
    encodings to try. *)
Theorem fallback_runtime_error_is_unreachable (file : CsvFile) :
  fst (read_ranges_csv file) <> inl RuntimeError
  /\ exists k : nat,
       (1 <= k <= 3)%nat
       /\ snd (read_ranges_csv file) = firstn k encodings_to_try.
Proof.
  unfold read_ranges_csv, encodings_to_try. cbn [encodings_loop].
  destruct (try_encoding file utf_8_sig) as [[e1|d1|]|r1] eqn:T1;
    try (split; [discriminate | exists 1%nat; split; [lia | reflexivity]]).
  - destruct (try_encoding file utf_8) as [[e2|d2|]|r2] eqn:T2;
      try (split; [discriminate | exists 2%nat; split; [lia | reflexivity]]).
    + destruct (try_encoding file cp1252) as [[e3|d3|]|r3] eqn:T3;
        try (split; [discriminate | exists 3%nat; split; [lia | reflexivity]]).
      unfold try_encoding in T3.
      destruct (rows_loop _ _ _); [discriminate|].
      destruct (decode_failure _); discriminate.
    + unfold try_encoding in T2.
      destruct (rows_loop _ _ _); [discriminate|].
      destruct (decode_failure _); discriminate.
  - unfold try_encoding in T1.
    destruct (rows_loop _ _ _); [discriminate|].
    destruct (decode_failure _); discriminate.
Qed.



(** ** The record loop and the file system *)

Section RecordLoop.

Context {Page : Type}.

Variable locate : string -> string.
Variable open_wb : gmap string (Document Page) -> string -> option OpenError.

Implicit Types (pages : list Page) (fs : gmap string (Document Page))
  (w : World Page).

Lemma avoid_overwriting_sound fs (stem : string) (fuel : nat)
    (out_path : string) (c : nat) (q : string) :
  avoid_overwriting locate fuel fs stem out_path c = Some q ->
  fs !! locate q = None
  /\ (q = out_path \/ exists n, q = suffixed_name stem n).
Proof.
  revert out_path c. induction fuel as [|fuel IH]; intros out_path c;
    [discriminate|].
  cbn [avoid_overwriting]. destruct (fs !! locate out_path) eqn:E.
  - intros H. destruct (IH _ _ H) as [F [->|[n ->]]]; eauto.
  - intros [= <-]. auto.
Qed.

(** More fuel does not change the path found. *)
Lemma avoid_overwriting_fuel_mono fs (stem : string) (fuel fuel' : nat)
    (out_path : string) (c : nat) (q : string) :
  avoid_overwriting locate fuel fs stem out_path c = Some q ->
  (fuel <= fuel')%nat ->
  avoid_overwriting locate fuel' fs stem out_path c = Some q.
Proof.
  revert fuel' out_path c. induction fuel as [|fuel IH];
    intros fuel' out_path c; [discriminate|].
  intros H L. destruct fuel' as [|fuel']; [lia|].
  cbn [avoid_overwriting] in *.
  destruct (fs !! locate out_path); [|exact H]. apply IH; [exact H | lia].
Qed.

Lemma written_snoc w (out_path : string) (a b : Z) :
  map (fun l : string * Z * Z => fst (fst l))
    (printed w ++ [(out_path, a, b)])%list
  = (written w ++ [out_path])%list.
Proof. unfold written. rewrite map_app. reflexivity. Qed.

(** A record that fails a sanity check raises that check's error. *)
Lemma record_body_sanity pages (i : nat) (start_page end_page : Z)
    (output_file : string) w (err : RunError) :
  sanity_checks i start_page end_page (Z.of_nat (length pages)) = Some err ->
  record_body locate open_wb pages i (start_page, end_page, output_file) w
  = inl err.
Proof. intros S. unfold record_body. rewrite S. reflexivity. Qed.

(** What a record that is written leaves behind. *)
Lemma record_body_inr pages (i : nat) (start_page end_page : Z)
    (output_file : string) w w' :
  record_body locate open_wb pages i (start_page, end_page, output_file) w
  = inr w' ->
  exists out_path,
    w' = {| files := <[locate out_path
                       := page_span pages start_page end_page]> (files w);
            printed := (printed w ++ [(out_path, start_page, end_page)])%list |}
    /\ files w !! locate out_path = None
    /\ open_wb (files w) (locate out_path) = None
    /\ (out_path = ensure_pdf_suffix output_file
        \/ exists n,
             out_path
             = suffixed_name (path_stem (ensure_pdf_suffix output_file)) n)
    /\ validated (Z.of_nat (length pages))
         (start_page, end_page, output_file).
Proof.
  unfold record_body.
  destruct (sanity_checks _ _ _ _) eqn:S; [discriminate|].
  apply sanity_checks_None in S. destruct S as (A & B & C).
  rewrite add_pages_validated by assumption.
  destruct (avoid_overwriting _ _ _ _ _ _) as [out_path|] eqn:V;
    [|discriminate].
  destruct (open_wb _ _) eqn:O; [discriminate|].
  intros [= <-]. apply avoid_overwriting_sound in V. destruct V as [F T].
  exists out_path. repeat split; auto.
Qed.

(** A validated record whose target is unused goes to the target. *)
Lemma record_body_unused pages (i : nat) (start_page end_page : Z)
    (output_file : string) w :
  validated (Z.of_nat (length pages)) (start_page, end_page, output_file) ->
  files w !! locate (ensure_pdf_suffix output_file) = None ->
  record_body locate open_wb pages i (start_page, end_page, output_file) w
  = match open_wb (files w) (locate (ensure_pdf_suffix output_file)) with
    | Some e => inl (OpenFailed e)
    | None =>
        inr {| files := <[locate (ensure_pdf_suffix output_file)
                          := page_span pages start_page end_page]> (files w);
               printed := (printed w ++ [(ensure_pdf_suffix output_file,
                                          start_page, end_page)])%list |}
    end.
Proof.
  intros (A & B & C) F. unfold record_body.
  assert (sanity_checks i start_page end_page (Z.of_nat (length pages)) = None)
    as -> by (apply sanity_checks_None; auto).
  rewrite add_pages_validated by assumption.
  unfold enough_fuel. cbn [avoid_overwriting]. rewrite F. reflexivity.
Qed.

(** A validated record whose target exists, with an unused [_1] form,
    goes to the [_1] form. *)
Lemma record_body_taken pages (i : nat) (start_page end_page : Z)
    (output_file : string) w :
  validated (Z.of_nat (length pages)) (start_page, end_page, output_file) ->
  is_Some (files w !! locate (ensure_pdf_suffix output_file)) ->
  files w
  !! locate (suffixed_name (path_stem (ensure_pdf_suffix output_file)) 1)
  = None ->
  record_body locate open_wb pages i (start_page, end_page, output_file) w
  = match
      open_wb (files w)
        (locate (suffixed_name (path_stem (ensure_pdf_suffix output_file)) 1))
    with
    | Some e => inl (OpenFailed e)
    | None =>
        inr {| files :=
                 <[locate (suffixed_name
                             (path_stem (ensure_pdf_suffix output_file)) 1)
                   := page_span pages start_page end_page]> (files w);
               printed :=
                 (printed w
                  ++ [(suffixed_name
                         (path_stem (ensure_pdf_suffix output_file)) 1,
                       start_page, end_page)])%list |}
    end.
Proof.
  intros (A & B & C) [d T] F. unfold record_body.
  assert (sanity_checks i start_page end_page (Z.of_nat (length pages)) = None)
    as -> by (apply sanity_checks_None; auto).
  rewrite add_pages_validated by assumption.
  unfold enough_fuel. cbn [avoid_overwriting]. rewrite T, F. reflexivity.
Qed.

(** No step of a run replaces what exists. *)
Lemma main_loop_preserves pages (ranges : list range) (i : nat) w w'
    (r : option RunError) :
  main_loop locate open_wb pages i ranges w = (w', r) -> files w ⊆ files w'.
Proof.
  revert i w. induction ranges as [|[[s e] name] rest IH]; intros i w.
  - cbn. intros [= <- _]. reflexivity.
  - cbn [main_loop]. destruct (record_body _ _ _ _ _ _) as [err|w1] eqn:B.
    + intros [= <- _]. reflexivity.
    + intros H. apply IH in H.
      destruct (record_body_inr _ _ _ _ _ _ _ B) as (p & -> & F & _).
      cbn [files] in H. etransitivity; [|exact H].
      now apply insert_subseteq.
Qed.


Lemma main_unfold pages (file : CsvFile) fs :
  main locate open_wb pages file fs
  = match fst (read_ranges_csv file) with
    | inl e => ({| files := fs; printed := [] |}, Some (inl e))
    | inr ranges =>
        (fst (main_loop locate open_wb pages 1 ranges
                {| files := fs; printed := [] |}),
         option_map inr
           (snd (main_loop locate open_wb pages 1 ranges
                   {| files := fs; printed := [] |})))
    end.
Proof.
  unfold main. destruct (fst (read_ranges_csv file)); [reflexivity|].
  destruct (main_loop _ _ _ _ _ _). reflexivity.
Qed.

Lemma main_loop_written pages (ranges : list range) (i : nat) w w'
    (r : option RunError) :
  main_loop locate open_wb pages i ranges w = (w', r) ->
  exists new : list string,
    written w' = (written w ++ new)%list
    /\ NoDup (map locate new)
    /\ (forall p, In p new -> files w !! locate p = None)
    /\ (forall k, is_Some (files w' !! k) <->
                  is_Some (files w !! k) \/ In k (map locate new))
    /\ size (files w') = (size (files w) + length new)%nat.
Proof.
  revert i w. induction ranges as [|[[s e] name] rest IH]; intros i w.
  - cbn. intros [= <- _]. exists []. rewrite app_nil_r.
    repeat split; try constructor; cbn; try tauto; lia.
  - cbn [main_loop]. destruct (record_body _ _ _ _ _ _) as [err|w1] eqn:B.
    + intros [= <- _]. exists []. rewrite app_nil_r.
      repeat split; try constructor; cbn; try tauto; lia.
    + intros L.
      destruct (record_body_inr _ _ _ _ _ _ _ B) as (p & -> & F & _).
      destruct (IH _ _ L) as (new & W & ND & Fr & Ex & Sz).
      unfold written at 2 in W. cbn [files printed] in *.
      rewrite written_snoc in W.
      exists (p :: new). split; [rewrite W, <- app_assoc; reflexivity|].
      cbn [map]. split.
      { constructor; [|exact ND]. rewrite list_elem_of_In, in_map_iff.
        intros (q & Eq & Hq). specialize (Fr q Hq). rewrite Eq in Fr.
        rewrite lookup_insert_eq in Fr. discriminate. }
      split.
      { intros q [<-|Hq]; [exact F|].
        specialize (Fr q Hq). apply lookup_insert_None in Fr. tauto. }
      split.
      { intros k. rewrite Ex, lookup_insert_is_Some. cbn [In].
        destruct (decide (locate p = k)); tauto. }
      rewrite Sz, map_size_insert_None by exact F. cbn [length]. lia.
Qed.

Lemma main_loop_log pages (ranges : list range) (i : nat) w w'
    (r : option RunError) :
  main_loop locate open_wb pages i ranges w = (w', r) ->
  exists (new : list (string * Z * Z)) (k : nat),
    printed w' = (printed w ++ new)%list
    /\ (k <= length ranges)%nat
    /\ (r = None <-> k = length ranges)
    /\ Forall2 (log_entry_ok locate pages (files w')) new (firstn k ranges).
Proof.
  revert i w. induction ranges as [|[[s e] name] rest IH]; intros i w.
  - cbn. intros [= <- <-]. exists [], 0%nat. rewrite app_nil_r.
    repeat split; auto; try constructor.
  - cbn [main_loop]. destruct (record_body _ _ _ _ _ _) as [err|w1] eqn:B.
    + intros [= <- <-]. exists [], 0%nat. rewrite app_nil_r.
      repeat split; cbn; try lia; try discriminate; try constructor.
    + intros L.
      destruct (record_body_inr _ _ _ _ _ _ _ B) as (p & -> & F & _ & _ & V).
      destruct (IH _ _ L) as (new & k & P & Hk & Hr & Fa).
      cbn [files printed] in *.
      exists ((p, s, e) :: new), (S k).
      split; [rewrite P, <- app_assoc; reflexivity|].
      split; [cbn; lia|]. split; [cbn [length]; rewrite Hr; lia|].
      cbn [firstn]. constructor; [|exact Fa].
      unfold log_entry_ok. cbn [fst]. split; [reflexivity|].
      split; [exact V|].
      apply (lookup_weaken (<[locate p := page_span pages s e]> (files w)));
        [apply lookup_insert_eq|].
      exact (main_loop_preserves _ _ _ _ _ _ L).
Qed.

(** A run that succeeds wrote every record, each validated. *)
Lemma main_loop_success pages (ranges : list range) (i : nat) w w' :
  main_loop locate open_wb pages i ranges w = (w', None) ->
  Forall (validated (Z.of_nat (length pages))) ranges
  /\ size (files w') = (size (files w) + length ranges)%nat
  /\ length (written w') = (length (written w) + length ranges)%nat.
Proof.
  revert i w. induction ranges as [|[[s e] name] rest IH]; intros i w.
  - cbn. intros [= <-]. repeat split; [constructor | lia | lia].
  - cbn [main_loop]. destruct (record_body _ _ _ _ _ _) as [err|w1] eqn:B;
      [discriminate|].
    intros L. destruct (record_body_inr _ _ _ _ _ _ _ B)
      as (p & -> & F & _ & _ & V).
    destruct (IH _ _ L) as (Vs & Sz & Wr).
    unfold written in *. cbn [files printed length] in *.
    rewrite map_size_insert_None in Sz by exact F.
    rewrite map_app, length_app in Wr. cbn [map length] in Wr.
    repeat split; [constructor; assumption | lia | lia].
Qed.

(** A run over names that are all unused and can be opened writes exactly
    those names. *)
Lemma run_on_unused_names pages (ranges : list range) (i : nat) w :
  Forall (validated (Z.of_nat (length pages))) ranges ->
  NoDup (map locate (targets ranges)) ->
  (forall t, In t (targets ranges) -> files w !! locate t = None) ->
  (forall fs t, In t (targets ranges) -> open_wb fs (locate t) = None) ->
  exists w',
    main_loop locate open_wb pages i ranges w = (w', None)
    /\ written w' = (written w ++ targets ranges)%list
    /\ forall k, is_Some (files w' !! k) <->
                 is_Some (files w !! k) \/ In k (map locate (targets ranges)).
Proof.
  intros V. revert i w.
  induction V as [|[[s e] name] rest V _ IH]; intros i w ND Fr Op.
  - exists w. cbn. rewrite app_nil_r. repeat split; tauto.
  - cbn [targets map snd] in ND, Fr, Op. fold (targets rest) in ND, Fr, Op.
    apply NoDup_cons in ND. destruct ND as [Nin ND].
    rewrite list_elem_of_In, in_map_iff in Nin.
    cbn [main_loop].
    rewrite (record_body_unused pages i s e name w V)
      by (apply Fr; cbn; auto).
    rewrite Op by (cbn; auto).
    destruct (IH (S i)
                {| files := <[locate (ensure_pdf_suffix name)
                              := page_span pages s e]> (files w);
                   printed := (printed w
                               ++ [(ensure_pdf_suffix name, s, e)])%list |}
                ND) as (w' & L & Wr & Ex).
    { intros t Ht. cbn [files]. rewrite lookup_insert_ne.
      - apply Fr. cbn. auto.
      - intros E. apply Nin. exists t. auto. }
    { intros fs t Ht. apply Op. cbn. auto. }
    exists w'. split; [exact L|]. split.
    + rewrite Wr. unfold written at 1. cbn [printed].
      rewrite written_snoc, <- app_assoc. reflexivity.
    + intros k. rewrite Ex. cbn [files targets map snd In].
      fold (targets rest). rewrite lookup_insert_is_Some.
      destruct (decide (locate (ensure_pdf_suffix name) = k)); tauto.
Qed.

(** A run over names that all exist, with unused [_1] forms that can be
    opened, writes exactly the [_1] forms. *)
Lemma run_on_taken_names pages (ranges : list range) (i : nat) w :
  Forall (validated (Z.of_nat (length pages))) ranges ->
  (forall t, In t (targets ranges) -> is_Some (files w !! locate t)) ->
  NoDup (map locate (suffixed_targets ranges)) ->
  (forall c, In c (suffixed_targets ranges) -> files w !! locate c = None) ->
  (forall fs c, In c (suffixed_targets ranges) ->
                open_wb fs (locate c) = None) ->
  exists w',
    main_loop locate open_wb pages i ranges w = (w', None)
    /\ written w' = (written w ++ suffixed_targets ranges)%list.
Proof.
  intros V. revert i w.
  induction V as [|[[s e] name] rest V _ IH]; intros i w Tk ND Fr Op.
  - exists w. cbn. rewrite app_nil_r. auto.
  - cbn [targets suffixed_targets map snd] in Tk, ND, Fr, Op.
    fold (targets rest) in Tk. fold (suffixed_targets rest) in ND, Fr, Op.
    apply NoDup_cons in ND. destruct ND as [Nin ND].
    rewrite list_elem_of_In, in_map_iff in Nin.
    cbn [main_loop].
    rewrite (record_body_taken pages i s e name w V)
      by (try apply Tk; try apply Fr; cbn; auto).
    rewrite Op by (cbn; auto).
    set (c := suffixed_name (path_stem (ensure_pdf_suffix name)) 1) in *.
    destruct (IH (S i)
                {| files := <[locate c := page_span pages s e]> (files w);
                   printed := (printed w ++ [(c, s, e)])%list |})
      as (w' & L & Wr).
    { intros t Ht. cbn [files]. apply lookup_insert_is_Some'. right.
      apply Tk. cbn. auto. }
    { exact ND. }
    { intros c' Hc'. cbn [files]. rewrite lookup_insert_ne.
      - apply Fr. cbn. auto.
      - intros E. apply Nin. exists c'. auto. }
    { intros fs c' Hc'. apply Op. cbn. auto. }
    exists w'. split; [exact L|].
    rewrite Wr. unfold written at 1. cbn [printed].
    rewrite written_snoc, <- app_assoc. reflexivity.
Qed.

(** C9: the name a record is written under ends with [.pdf] in some
    letter case.  The trimmed output name is kept when it already ends
    with [.pdf] in any letter case, and gets [.pdf] appended otherwise;
    the path written, with or without a collision suffix, ends the same
    way. *)
Theorem output_name_ends_with_pdf (pages : list Page)
    (i : nat) (start_page end_page : Z) (output_file : string)
    (w w' : World Page) :
  endswith ".pdf" (lower (ensure_pdf_suffix output_file)) = true
  /\ (endswith ".pdf" (lower (strip output_file)) = true ->
      ensure_pdf_suffix output_file = strip output_file)
  /\ (endswith ".pdf" (lower (strip output_file)) = false ->
      ensure_pdf_suffix output_file = strip output_file +:+ ".pdf")
  /\ (record_body locate open_wb pages i
        (start_page, end_page, output_file) w = inr w' ->
      exists out_path,
        written w' = (written w ++ [out_path])%list
        /\ endswith ".pdf" (lower out_path) = true).
Proof.
  assert (endswith ".pdf" (lower (ensure_pdf_suffix output_file)) = true) as E.
  { unfold ensure_pdf_suffix. cbv zeta.
    destruct (endswith ".pdf" (lower (strip output_file))) eqn:E;
      cbn [negb]; [exact E|].
    rewrite lower_append. change (lower ".pdf") with ".pdf".
    apply endswith_append. }
  split; [exact E|]. split; [|split].
  - intros H. unfold ensure_pdf_suffix. cbv zeta. rewrite H. reflexivity.
  - intros H. unfold ensure_pdf_suffix. cbv zeta. rewrite H. reflexivity.
  - intros B.
    destruct (record_body_inr _ _ _ _ _ _ _ B) as (p & -> & _ & _ & S & _).
    exists p. unfold written at 1. cbn [printed]. rewrite written_snoc.
    split; [reflexivity|].
    destruct S as [->|[n ->]]; [exact E | apply suffixed_name_endswith].
Qed.

(** X5: a table without data rows (an empty file, blank rows only, or a
    header followed by blank rows) parses to no record: the run ends
    without error, with no file written and no [[OK]] line printed. *)
Theorem table_without_data_rows_writes_nothing (pages : list Page)
    (file : CsvFile) (fs : gmap string (Document Page))
    (failed : list Encoding) (enc : Encoding) (rest : list Encoding) :
  encodings_to_try = (failed ++ enc :: rest)%list ->
  Forall (decoding_fails file) failed ->
  decode_failure (file enc) = None ->
  data_rows 1 (delivered (file enc)) = [] ->
  main locate open_wb pages file fs
  = ({| files := fs; printed := [] |}, None).
Proof.
  intros E F D R.
  assert (try_encoding file enc = inr []) as T.
  { apply try_encoding_inr. split; [|exact D].
    apply (rows_loop_of_records _ 1 [] []). rewrite R. reflexivity. }
  unfold main, read_ranges_csv.
  rewrite E, (encodings_loop_first file failed enc rest None F)
    by (rewrite T; discriminate).
  rewrite T. reflexivity.
Qed.

(** X6: a malformed row anywhere in the table, also after rows that parse,
    ends the run before the record loop starts: the parser's error is
    raised and no file is written. *)
Theorem malformed_row_prevents_all_output (pages : list Page)
    (file : CsvFile) (fs : gmap string (Document Page))
    (failed : list Encoding) (enc : Encoding) (rest : list Encoding)
    (pre : list csv_row) (row : csv_row) (post : list csv_row)
    (acc : list range) (e : RowError) :
  encodings_to_try = (failed ++ enc :: rest)%list ->
  Forall (decoding_fails file) failed ->
  delivered (file enc) = (pre ++ row :: post)%list ->
  rows_loop 1 pre [] = inr acc ->
  malformed_row (S (length pre)) row e ->
  main locate open_wb pages file fs
  = ({| files := fs; printed := [] |}, Some (inl (RowFailure e))).
Proof.
  intros E F D P M.
  assert (try_encoding file enc = inl (RowFailure e)) as T.
  { unfold try_encoding. rewrite D, rows_loop_app, P.
    cbn [rows_loop Nat.add]. apply row_body_raise_iff in M. now rewrite M. }
  unfold main, read_ranges_csv.
  rewrite E, (encodings_loop_first file failed enc rest None F)
    by (rewrite T; discriminate).
  rewrite T. reflexivity.
Qed.

(** X7: whatever the outcome of a run, the paths it wrote denote pairwise
    distinct files, none of which existed before the run, and afterwards
    the file system holds exactly what it held before and the files
    written: one more file per path written. *)
Theorem run_writes_fresh_distinct_paths (pages : list Page)
    (file : CsvFile) (fs : gmap string (Document Page)) :
  let w := fst (main locate open_wb pages file fs) in
  NoDup (written w)
  /\ NoDup (map locate (written w))
  /\ (forall p, In p (written w) -> fs !! locate p = None)
  /\ (forall k, is_Some (files w !! k) <->
                is_Some (fs !! k) \/ In k (map locate (written w)))
  /\ size (files w) = (size fs + length (written w))%nat.
Proof.
  cbv zeta. rewrite main_unfold.
  destruct (fst (read_ranges_csv file)) as [e|ranges]; cbn [fst].
  - cbn. repeat split; try constructor; try tauto; lia.
  - destruct (main_loop locate open_wb pages 1 ranges
                {| files := fs; printed := [] |}) as [w r] eqn:L.
    cbn [fst].
    destruct (main_loop_written _ _ _ _ _ _ L)
      as (new & W & ND & Fr & Ex & Sz).
    cbn [files printed written map app] in *. subst new.
    split; [exact (NoDup_fmap_1 locate _ ND) | auto].
Qed.

(** X8: whatever the outcome of a run, its [[OK]] lines follow the
    records in table order, one line per record up to the record that
    aborted the run, and each line is true of the final file system: the
    record it names passed validation and the path it names holds the
    pages [start_page] to [end_page] of the source.  The run succeeds
    exactly when there is a line for every record. *)
Theorem every_ok_line_is_true (pages : list Page)
    (file : CsvFile) (fs : gmap string (Document Page))
    (ranges : list range) :
  fst (read_ranges_csv file) = inr ranges ->
  exists k : nat,
    (k <= length ranges)%nat
    /\ (snd (main locate open_wb pages file fs) = None <-> k = length ranges)
    /\ Forall2
         (log_entry_ok locate pages
            (files (fst (main locate open_wb pages file fs))))
         (printed (fst (main locate open_wb pages file fs)))
         (firstn k ranges).
Proof.
  intros R. rewrite main_unfold, R. cbn [fst snd].
  destruct (main_loop locate open_wb pages 1 ranges
              {| files := fs; printed := [] |}) as [w r] eqn:L.
  cbn [fst snd].
  destruct (main_loop_log _ _ _ _ _ _ L) as (new & k & P & Hk & Hr & Fa).
  cbn [printed app] in P. subst new.
  exists k. split; [exact Hk|]. split; [|exact Fa].
  rewrite <- Hr. destruct r; cbn; split; congruence.
Qed.

(** X14: when two records of one run have the same normalized name, that
    name and its [_1] form denote different files, both unused, and the
    operating system lets both be opened, the first record is written
    under the name and the second under the [_1] form: collisions inside
    a run are resolved in processing order. *)
Theorem repeated_name_gets_first_suffix (pages : list Page)
    (i : nat) (s1 e1 s2 e2 : Z) (name1 name2 : string) (w : World Page) :
  validated (Z.of_nat (length pages)) (s1, e1, name1) ->
  validated (Z.of_nat (length pages)) (s2, e2, name2) ->
  ensure_pdf_suffix name2 = ensure_pdf_suffix name1 ->
  locate (suffixed_name (path_stem (ensure_pdf_suffix name1)) 1)
  <> locate (ensure_pdf_suffix name1) ->
  files w !! locate (ensure_pdf_suffix name1) = None ->
  files w !! locate (suffixed_name (path_stem (ensure_pdf_suffix name1)) 1)
  = None ->
  (forall fs, open_wb fs (locate (ensure_pdf_suffix name1)) = None) ->
  (forall fs,
      open_wb fs
        (locate (suffixed_name (path_stem (ensure_pdf_suffix name1)) 1))
      = None) ->
  exists w',
    main_loop locate open_wb pages i [(s1, e1, name1); (s2, e2, name2)] w
    = (w', None)
    /\ written w'
       = (written w
          ++ [ensure_pdf_suffix name1;
              suffixed_name (path_stem (ensure_pdf_suffix name1)) 1])%list
    /\ files w' !! locate (ensure_pdf_suffix name1)
       = Some (page_span pages s1 e1)
    /\ files w'
       !! locate (suffixed_name (path_stem (ensure_pdf_suffix name1)) 1)
       = Some (page_span pages s2 e2).
Proof.
  intros V1 V2 E Ne F1 F2 O1 O2.
  cbn [main_loop].
  rewrite (record_body_unused pages i s1 e1 name1 w V1 F1), O1.
  rewrite (record_body_taken pages (S i) s2 e2 name2 _ V2); rewrite E;
    cbn [files].
  - rewrite O2. eexists. split; [reflexivity|]. unfold written.
    cbn [printed]. rewrite !map_app, <- app_assoc. cbn [map fst app files].
    split; [reflexivity|]. split.
    + rewrite lookup_insert_ne by exact Ne. apply lookup_insert_eq.
    + apply lookup_insert_eq.
  - rewrite lookup_insert_eq. eauto.
  - rewrite lookup_insert_ne by (intros H; apply Ne; symmetry; exact H).
    exact F2.
Qed.

(** *** With suffixed names that denote different files *)

Hypothesis locate_suffixes : suffixes_apart locate.

(** Among [n] successive suffixes one is unused when fewer than [n] files
    exist. *)
Lemma unused_suffix_exists (stem : string) (n : nat) fs (c : nat) :
  (size fs < n)%nat ->
  exists k,
    (c <= k < c + n)%nat /\ fs !! locate (suffixed_name stem k) = None.
Proof.
  revert fs c. induction n as [|n IH]; intros fs c L; [lia|].
  destruct (fs !! locate (suffixed_name stem c)) as [d|] eqn:E.
  - assert (size fs <> 0%nat) as NZ
      by (apply (map_size_ne_0_lookup_2 _ (locate (suffixed_name stem c)));
          eauto).
    destruct (IH (delete (locate (suffixed_name stem c)) fs) (S c))
      as (k & Hk & Hf).
    { rewrite map_size_delete, E. lia. }
    exists k. split; [lia|].
    rewrite lookup_delete_ne in Hf; [exact Hf|].
    intros Heq. apply locate_suffixes in Heq. lia.
  - exists c. split; [lia | exact E].
Qed.

Lemma avoid_overwriting_from_suffix (stem : string) fs (fuel c k : nat) :
  (c <= k)%nat ->
  fs !! locate (suffixed_name stem k) = None ->
  (k - c < fuel)%nat ->
  exists n,
    (c <= n <= k)%nat
    /\ avoid_overwriting locate fuel fs stem (suffixed_name stem c) (S c)
       = Some (suffixed_name stem n)
    /\ fs !! locate (suffixed_name stem n) = None
    /\ forall j, (c <= j < n)%nat ->
                 is_Some (fs !! locate (suffixed_name stem j)).
Proof.
  revert c. induction fuel as [|fuel IH]; intros c Hc Hk Hf; [lia|].
  cbn [avoid_overwriting].
  destruct (fs !! locate (suffixed_name stem c)) as [d|] eqn:E.
  - assert (c <> k) as Hne by (intros ->; congruence).
    destruct (IH (S c)) as (n & Hn & Ha & Hfree & Hused); [lia | auto | lia |].
    exists n. repeat split; [lia | lia | exact Ha | exact Hfree |].
    intros j Hj. destruct (Nat.eq_dec j c) as [->|]; [eauto|].
    apply Hused. lia.
  - exists c. repeat split; [lia | lia | exact E |]. intros j Hj. lia.
Qed.

(** The loop ends within [enough_fuel] tests, on the first unused path. *)
Lemma avoid_overwriting_enough fs (target : string) :
  exists out_path,
    avoid_overwriting locate (enough_fuel fs) fs (path_stem target) target 1
    = Some out_path
    /\ first_unused_path locate fs target out_path.
Proof.
  unfold enough_fuel, first_unused_path. cbn [avoid_overwriting].
  destruct (fs !! locate target) as [d|] eqn:E.
  - destruct (unused_suffix_exists (path_stem target) (S (size fs)) fs 1)
      as (k & Hk & Hfree); [lia|].
    destruct (avoid_overwriting_from_suffix (path_stem target) fs
                (S (size fs)) 1 k) as (n & Hn & Ha & Hf & Hused);
      [lia | exact Hfree | lia |].
    exists (suffixed_name (path_stem target) n).
    split; [exact Ha|]. split; [exact Hf|]. right.
    split; [eauto|]. exists n. repeat split; [lia | exact Hused].
  - exists target. split; [reflexivity|]. split; [exact E|]. left. auto.
Qed.

(** A validated record reaches the first unused path; there it is written
    or the open is refused. *)
Lemma record_body_validated pages (i : nat)
    (start_page end_page : Z) (output_file : string) w :
  validated (Z.of_nat (length pages)) (start_page, end_page, output_file) ->
  exists out_path,
    first_unused_path locate (files w) (ensure_pdf_suffix output_file)
      out_path
    /\ record_body locate open_wb pages i
         (start_page, end_page, output_file) w
       = match open_wb (files w) (locate out_path) with
         | Some e => inl (OpenFailed e)
         | None =>
             inr {| files := <[locate out_path
                               := page_span pages start_page end_page]>
                               (files w);
                    printed := (printed w
                                ++ [(out_path, start_page, end_page)])%list |}
         end.
Proof.
  intros (A & B & C). unfold record_body.
  assert (sanity_checks i start_page end_page (Z.of_nat (length pages)) = None)
    as -> by (apply sanity_checks_None; auto).
  rewrite add_pages_validated by assumption.
  destruct (avoid_overwriting_enough (files w) (ensure_pdf_suffix output_file))
    as (out_path & -> & U).
  exists out_path. split; [exact U | reflexivity].
Qed.

(** The errors of the loop body: a failed sanity check, or a refused
    open of a validated record. *)
Lemma record_body_inl pages (i : nat) (start_page end_page : Z)
    (output_file : string) w (err : RunError) :
  record_body locate open_wb pages i (start_page, end_page, output_file) w
  = inl err ->
  sanity_checks i start_page end_page (Z.of_nat (length pages)) = Some err
  \/ (validated (Z.of_nat (length pages))
        (start_page, end_page, output_file)
      /\ exists e, err = OpenFailed e).
Proof.
  intros B.
  destruct (sanity_checks i start_page end_page (Z.of_nat (length pages)))
    as [e0|] eqn:S.
  - rewrite (record_body_sanity _ _ _ _ output_file w _ S) in B.
    left. congruence.
  - apply sanity_checks_None in S. right. split; [exact S|].
    destruct (record_body_validated pages i _ _ output_file w S)
      as (p & _ & B').
    rewrite B' in B. destruct (open_wb (files w) (locate p)) as [e|];
      [|discriminate].
    exists e. congruence.
Qed.


Lemma main_loop_abort pages (ranges : list range) (i : nat) w w'
    (err : RunError) :
  main_loop locate open_wb pages i ranges w = (w', Some err) ->
  exists good start_page end_page output_file rest,
    ranges = (good ++ (start_page, end_page, output_file) :: rest)%list
    /\ main_loop locate open_wb pages i good w = (w', None)
    /\ (sanity_checks (i + length good) start_page end_page
          (Z.of_nat (length pages)) = Some err
        \/ (validated (Z.of_nat (length pages))
              (start_page, end_page, output_file)
            /\ exists e, err = OpenFailed e)).
Proof.
  revert i w. induction ranges as [|[[s e] name] rest IH]; intros i w.
  - cbn. discriminate.
  - cbn [main_loop]. destruct (record_body _ _ _ _ _ _) as [err'|w1] eqn:B.
    + intros [= <- ->]. apply record_body_inl in B.
      exists [], s, e, name, rest. cbn [app length main_loop].
      rewrite Nat.add_0_r. auto.
    + intros L.
      destruct (IH _ _ L) as (good & s' & e' & n' & rest' & -> & G & HS).
      exists ((s, e, name) :: good), s', e', n', rest'.
      split; [reflexivity|]. split; [cbn [main_loop]; rewrite B; exact G|].
      cbn [length].
      replace (i + S (length good))%nat with (S i + length good)%nat by lia.
      exact HS.
Qed.

(** C1 (as amended): a validated record reaches the first unused path.
    When the operating system lets that path be opened, the record is
    written as exactly one new document, which holds the pages
    [start_page] to [end_page] of the source, counted from 1 with both
    ends included, in their order, so that its page count is
    [end_page - start_page + 1].  When the open is refused, the run
    aborts with that error and nothing is written for the record. *)
Theorem validated_record_yields_page_span (pages : list Page)
    (i : nat) (start_page end_page : Z) (output_file : string)
    (w : World Page) :
  validated (Z.of_nat (length pages)) (start_page, end_page, output_file) ->
  exists out_path,
    first_unused_path locate (files w) (ensure_pdf_suffix output_file)
      out_path
    /\ (open_wb (files w) (locate out_path) = None ->
        record_body locate open_wb pages i
          (start_page, end_page, output_file) w
        = inr {| files := <[locate out_path
                            := page_span pages start_page end_page]>
                            (files w);
                 printed := (printed w
                             ++ [(out_path, start_page, end_page)])%list |}
        /\ size (<[locate out_path := page_span pages start_page end_page]>
                   (files w))
           = S (size (files w)))
    /\ (forall e,
          open_wb (files w) (locate out_path) = Some e ->
          record_body locate open_wb pages i
            (start_page, end_page, output_file) w
          = inl (OpenFailed e))
    /\ Z.of_nat (length (page_span pages start_page end_page))
       = end_page - start_page + 1
    /\ forall k : nat,
         Z.of_nat k < end_page - start_page + 1 ->
         nth_error (page_span pages start_page end_page) k
         = nth_error pages (Z.to_nat (start_page - 1) + k).
Proof.
  intros V. destruct (record_body_validated pages i _ _ _ w V)
    as (out_path & U & B).
  destruct V as (A1 & A2 & A3).
  exists out_path. split; [exact U|]. split; [|split; [|split]].
  - intros O. rewrite O in B. split; [exact B|].
    apply map_size_insert_None. exact (proj1 U).
  - intros e O. rewrite O in B. exact B.
  - now apply page_span_length.
  - intros k Hk. now apply page_span_nth.
Qed.


(** C5 (as amended): when the normalized target of a record exists, the
    record goes to the target's stem followed by the first suffix [_n],
    n = 1, 2, ... in increasing order, and [.pdf], whose path does not
    exist yet: there it is written, unless the open is refused.  No run
    replaces a file that exists, so a second run leaves the outputs of a
    first run as they are.  When the normalized names of the table and
    their [_1] forms denote pairwise distinct files, none of which exists
    before the first run, and all of them can be opened, the first run
    writes the normalized names and the second run writes their [_1]
    forms. *)
Theorem collision_policy (pages : list Page) :
  (forall (i : nat) (start_page end_page : Z) (output_file : string)
          (w : World Page),
      validated (Z.of_nat (length pages))
        (start_page, end_page, output_file) ->
      is_Some (files w !! locate (ensure_pdf_suffix output_file)) ->
      exists n : nat,
        (1 <= n)%nat
        /\ files w
           !! locate (suffixed_name
                        (path_stem (ensure_pdf_suffix output_file)) n)
           = None
        /\ (forall j : nat,
              (1 <= j < n)%nat ->
              is_Some
                (files w
                 !! locate (suffixed_name
                              (path_stem (ensure_pdf_suffix output_file)) j)))
        /\ record_body locate open_wb pages i
             (start_page, end_page, output_file) w
           = match
               open_wb (files w)
                 (locate (suffixed_name
                            (path_stem (ensure_pdf_suffix output_file)) n))
             with
             | Some e => inl (OpenFailed e)
             | None =>
                 inr {| files :=
                          <[locate (suffixed_name
                                      (path_stem
                                         (ensure_pdf_suffix output_file)) n)
                            := page_span pages start_page end_page]>
                            (files w);
                        printed :=
                          (printed w
                           ++ [(suffixed_name
                                  (path_stem (ensure_pdf_suffix output_file))
                                  n,
                                start_page, end_page)])%list |}
             end)
  /\ (forall (ranges : list range) (i : nat) (w w' : World Page)
             (r : option RunError),
         main_loop locate open_wb pages i ranges w = (w', r) ->
         files w ⊆ files w')
  /\ (forall (ranges : list range) (fs : gmap string (Document Page)),
         Forall (validated (Z.of_nat (length pages))) ranges ->
         NoDup (map locate (targets ranges ++ suffixed_targets ranges)) ->
         (forall p, In p (targets ranges ++ suffixed_targets ranges) ->
                    fs !! locate p = None) ->
         (forall fs' p, In p (targets ranges ++ suffixed_targets ranges) ->
                        open_wb fs' (locate p) = None) ->
         exists w1 w2 : World Page,
           main_loop locate open_wb pages 1 ranges
             {| files := fs; printed := [] |} = (w1, None)
           /\ written w1 = targets ranges
           /\ main_loop locate open_wb pages 1 ranges
                {| files := files w1; printed := [] |} = (w2, None)
           /\ written w2 = suffixed_targets ranges
           /\ files w1 ⊆ files w2).
Proof.
  split; [|split].
  - intros i s e name w V [d T].
    destruct (record_body_validated pages i s e name w V)
      as (out_path & [F [[N _]|[_ (n & Hn & E & Hused)]]] & B);
      [congruence|].
    subst out_path. exists n. auto.
  - intros ranges i w w' r. apply main_loop_preserves.
  - intros ranges fs V ND Fr Op.
    rewrite map_app in ND.
    apply NoDup_app in ND. destruct ND as (ND1 & Dj & ND2).
    destruct (run_on_unused_names pages ranges 1
                {| files := fs; printed := [] |} V ND1)
      as (w1 & L1 & W1 & Ex).
    { intros t Ht. apply Fr, in_or_app. auto. }
    { intros fs' t Ht. apply Op, in_or_app. auto. }
    destruct (run_on_taken_names pages ranges 1
                {| files := files w1; printed := [] |} V)
      as (w2 & L2 & W2).
    { intros t Ht. apply Ex. right. now apply in_map. }
    { exact ND2. }
    { intros c Hc. cbn [files].
      destruct (files w1 !! locate c) as [d|] eqn:E; [|reflexivity].
      assert (is_Some (files w1 !! locate c)) as HS by eauto.
      apply Ex in HS. cbn [files] in HS. destruct HS as [[d' HS]|HS].
      - rewrite Fr in HS; [discriminate|]. apply in_or_app. auto.
      - apply list_elem_of_In in HS.
        destruct (Dj _ HS). apply list_elem_of_In. now apply in_map. }
    { intros fs' c Hc. apply Op, in_or_app. auto. }
    exists w1, w2. split; [exact L1|]. split; [exact W1|].
    split; [exact L2|]. split; [exact W2|].
    exact (main_loop_preserves _ _ _ _ _ _ L2).
Qed.


(** X9: the collision loop always ends.  In a file system of [n] files it
    makes at most [n + 2] existence tests, and then stands on the first
    unused path; more tests allowed do not change the path. *)
Theorem collision_loop_terminates (fs : gmap string (Document Page))
    (target : string) :
  exists out_path,
    first_unused_path locate fs target out_path
    /\ forall fuel : nat,
         (size fs + 2 <= fuel)%nat ->
         avoid_overwriting locate fuel fs (path_stem target) target 1
         = Some out_path.
Proof.
  destruct (avoid_overwriting_enough fs target) as (out_path & A & U).
  exists out_path. split; [exact U|]. intros fuel Hf.
  apply (avoid_overwriting_fuel_mono fs _ (enough_fuel fs)); [exact A|].
  unfold enough_fuel. lia.
Qed.

(** X10: a run aborts either with a validation error, raised for the
    first record of the table that is not valid and numbered from 1, or
    with the error of an open that was refused for a valid record; all
    records before that record are valid and were written.  Page access
    never leaves the document and the collision loop never runs on. *)
Theorem run_error_is_first_invalid_record (pages : list Page)
    (ranges : list range) (w w' : World Page) (err : RunError) :
  main_loop locate open_wb pages 1 ranges w = (w', Some err) ->
  exists good start_page end_page output_file rest,
    ranges = (good ++ (start_page, end_page, output_file) :: rest)%list
    /\ Forall (validated (Z.of_nat (length pages))) good
    /\ main_loop locate open_wb pages 1 good w = (w', None)
    /\ (sanity_checks (S (length good)) start_page end_page
          (Z.of_nat (length pages)) = Some err
        \/ (validated (Z.of_nat (length pages))
              (start_page, end_page, output_file)
            /\ exists e, err = OpenFailed e))
    /\ err <> IndexError /\ err <> OutOfFuel.
Proof.
  intros L.
  destruct (main_loop_abort _ _ _ _ _ _ L)
    as (good & s & e & name & rest & -> & G & H).
  exists good, s, e, name, rest. cbn [Nat.add] in H.
  split; [reflexivity|].
  split; [exact (proj1 (main_loop_success _ _ _ _ _ G))|].
  split; [exact G|]. split; [exact H|].
  destruct H as [H|[_ [e' ->]]]; [|split; discriminate].
  unfold sanity_checks in H.
  destruct ((s <? 1) || (e <? 1)); [injection H as <-; split; discriminate|].
  destruct (e <? s); [injection H as <-; split; discriminate|].
  destruct (e >? Z.of_nat (length pages));
    [injection H as <-; split; discriminate | discriminate].
Qed.


End RecordLoop.

(** ** The claims at sample inputs *)

Lemma plain_locate_suffixes : suffixes_apart plain_locate.
Proof. intros stem n m. apply suffixed_name_inj. Qed.

Lemma validated_record_yields_page_span_witness :
  exists out_path,
    first_unused_path plain_locate (files empty_dir)
      (ensure_pdf_suffix "mid") out_path
    /\ (flat_open (files empty_dir) (plain_locate out_path) = None ->
        record_body plain_locate flat_open [10; 20; 30; 40]%nat 1
          (2, 3, "mid") empty_dir
        = inr {| files := <[plain_locate out_path
                            := page_span [10; 20; 30; 40]%nat 2 3]>
                            (files empty_dir);
                 printed := (printed empty_dir ++ [(out_path, 2, 3)])%list |}
        /\ size (<[plain_locate out_path
                   := page_span [10; 20; 30; 40]%nat 2 3]> (files empty_dir))
           = S (size (files empty_dir)))
    /\ (forall e,
          flat_open (files empty_dir) (plain_locate out_path) = Some e ->
          record_body plain_locate flat_open [10; 20; 30; 40]%nat 1
            (2, 3, "mid") empty_dir
          = inl (OpenFailed e))
    /\ Z.of_nat (length (page_span [10; 20; 30; 40]%nat 2 3)) = 3 - 2 + 1
    /\ forall k : nat,
         Z.of_nat k < 3 - 2 + 1 ->
         nth_error (page_span [10; 20; 30; 40]%nat 2 3) k
         = nth_error [10; 20; 30; 40]%nat (Z.to_nat (2 - 1) + k).
Proof.
  apply (validated_record_yields_page_span plain_locate flat_open
           plain_locate_suffixes [10; 20; 30; 40]%nat 1 2 3 "mid" empty_dir).
  cbn. lia.
Defined.

(** C1, counterexample: the record [1,1,sub/a] is valid for a one-page
    document, but the output directory has no subdirectory [sub]: the
    open is refused, the run aborts and nothing is written. *)
Lemma validated_record_in_missing_directory :
  validated (Z.of_nat (length [7%nat])) (1, 1, "sub/a")
  /\ record_body plain_locate flat_open [7%nat] 1 (1, 1, "sub/a") empty_dir
     = inl (OpenFailed ENOENT)
  /\ snd (main plain_locate flat_open [7%nat]
            (ascii_table [["1"; "1"; "sub/a"]]) ∅)
     = Some (inr (OpenFailed ENOENT))
  /\ written (fst (main plain_locate flat_open [7%nat]
                     (ascii_table [["1"; "1"; "sub/a"]]) ∅)) = [].
Proof. split; [cbn; lia | vm_compute; repeat split]. Qed.



Lemma collision_policy_witness :
  exists w1 w2 : World nat,
    main_loop plain_locate flat_open [7; 8]%nat 1
      [(1, 1, "a"); (2, 2, "b.pdf")] {| files := ∅; printed := [] |}
    = (w1, None)
    /\ written w1 = targets [(1, 1, "a"); (2, 2, "b.pdf")]
    /\ main_loop plain_locate flat_open [7; 8]%nat 1
         [(1, 1, "a"); (2, 2, "b.pdf")]
         {| files := files w1; printed := [] |} = (w2, None)
    /\ written w2 = suffixed_targets [(1, 1, "a"); (2, 2, "b.pdf")]
    /\ files w1 ⊆ files w2.
Proof.
  apply (proj2 (proj2 (collision_policy plain_locate flat_open
                         plain_locate_suffixes [7; 8]%nat))
           [(1, 1, "a"); (2, 2, "b.pdf")] ∅).
  - repeat constructor; cbn; lia.
  - apply (bool_decide_unpack _). vm_compute. exact I.
  - intros p _. apply lookup_empty.
  - intros fs' p Hp. vm_compute in Hp.
    destruct Hp as [<-|[<-|[<-|[<-|[]]]]]; reflexivity.
Defined.

(** C5, counterexample: a table that names the same output twice.  The
    first run writes [a.pdf] and [a_1.pdf]; the second run writes
    [a_2.pdf] and [a_3.pdf], not [_1]-suffixed names. *)
Lemma second_run_of_repeated_name :
  let table := ascii_table [["1"; "1"; "a"]; ["1"; "1"; "a"]] in
  let first_run := fst (main plain_locate flat_open [7%nat] table ∅) in
  let second_run :=
    fst (main plain_locate flat_open [7%nat] table (files first_run)) in
  written first_run = ["a.pdf"; "a_1.pdf"]
  /\ written second_run = ["a_2.pdf"; "a_3.pdf"].
Proof. vm_compute. split; reflexivity. Qed.



Lemma output_name_ends_with_pdf_witness :
  ensure_pdf_suffix " Report.PDF " = "Report.PDF"
  /\ ensure_pdf_suffix "Intro" = "Intro.pdf".
Proof.
  split.
  - apply (proj1 (proj2 (output_name_ends_with_pdf plain_locate flat_open
                           (@nil nat) 1 1 1 " Report.PDF "
                           empty_dir empty_dir))).
    reflexivity.
  - apply (proj1 (proj2 (proj2 (output_name_ends_with_pdf plain_locate
                                  flat_open (@nil nat) 1 1 1 "Intro"
                                  empty_dir empty_dir)))).
    reflexivity.
Defined.

Lemma table_without_data_rows_writes_nothing_witness :
  main plain_locate flat_open [7%nat]
    (cp1252_table [["Start"; "Stop"; "Filename"]; []; [""; " "]]) ∅
  = ({| files := ∅; printed := [] |}, None).
Proof.
  apply (table_without_data_rows_writes_nothing plain_locate flat_open
           [7%nat]
           (cp1252_table [["Start"; "Stop"; "Filename"]; []; [""; " "]]) ∅
           [utf_8_sig; utf_8] cp1252 []).
  - reflexivity.
  - repeat constructor; eexists; reflexivity.
  - reflexivity.
  - reflexivity.
Defined.

Lemma malformed_row_prevents_all_output_witness :
  main plain_locate flat_open [7; 8]%nat
    (ascii_table [["1"; "1"; "a"]; ["2"; "2"; " "]]) ∅
  = ({| files := ∅; printed := [] |},
     Some (inl (RowFailure (FilenameBlank 2)))).
Proof.
  apply (malformed_row_prevents_all_output plain_locate flat_open
           [7; 8]%nat
           (ascii_table [["1"; "1"; "a"]; ["2"; "2"; " "]]) ∅
           [] utf_8_sig [utf_8; cp1252]
           [["1"; "1"; "a"]] ["2"; "2"; " "] [] [(1, 1, "a")]).
  - reflexivity.
  - constructor.
  - reflexivity.
  - reflexivity.
  - apply (blank_filename 2 ["2"; "2"; " "] 2 2);
      [reflexivity | cbn; lia | reflexivity | reflexivity | reflexivity
      | reflexivity].
Defined.

Lemma every_ok_line_is_true_witness :
  exists k : nat,
    (k <= length usage_ranges)%nat
    /\ (snd (main plain_locate flat_open (seq 0 20) usage_table ∅) = None
        <-> k = length usage_ranges)
    /\ Forall2
         (log_entry_ok plain_locate (seq 0 20)
            (files (fst (main plain_locate flat_open (seq 0 20)
                           usage_table ∅))))
         (printed (fst (main plain_locate flat_open (seq 0 20)
                          usage_table ∅)))
         (firstn k usage_ranges).
Proof.
  apply (every_ok_line_is_true plain_locate flat_open (seq 0 20)
           usage_table ∅ usage_ranges).
  reflexivity.
Defined.

Lemma collision_loop_terminates_witness :
  exists out_path,
    first_unused_path plain_locate (files taken_dir) "a.pdf" out_path
    /\ forall fuel : nat,
         (size (files taken_dir) + 2 <= fuel)%nat ->
         avoid_overwriting plain_locate fuel (files taken_dir)
           (path_stem "a.pdf") "a.pdf" 1
         = Some out_path.
Proof.
  apply (collision_loop_terminates plain_locate plain_locate_suffixes
           (files taken_dir) "a.pdf").
Defined.

Lemma run_error_is_first_invalid_record_witness :
  exists good start_page end_page output_file rest,
    [(1, 1, "a"); (2, 1, "b"); (0, 0, "c")]
    = (good ++ (start_page, end_page, output_file) :: rest)%list
    /\ Forall (validated (Z.of_nat (length [7; 8]%nat))) good
    /\ main_loop plain_locate flat_open [7; 8]%nat 1 good empty_dir
       = (fst (main_loop plain_locate flat_open [7; 8]%nat 1
                 [(1, 1, "a"); (2, 1, "b"); (0, 0, "c")] empty_dir), None)
    /\ (sanity_checks (S (length good)) start_page end_page
          (Z.of_nat (length [7; 8]%nat)) = Some (EndBeforeStart 2 2 1)
        \/ (validated (Z.of_nat (length [7; 8]%nat))
              (start_page, end_page, output_file)
            /\ exists e, EndBeforeStart 2 2 1 = OpenFailed e))
    /\ EndBeforeStart 2 2 1 <> IndexError
    /\ EndBeforeStart 2 2 1 <> OutOfFuel.
Proof.
  apply (run_error_is_first_invalid_record plain_locate flat_open
           plain_locate_suffixes [7; 8]%nat
           [(1, 1, "a"); (2, 1, "b"); (0, 0, "c")] empty_dir
           (fst (main_loop plain_locate flat_open [7; 8]%nat 1
                   [(1, 1, "a"); (2, 1, "b"); (0, 0, "c")] empty_dir))).
  vm_compute. reflexivity.
Defined.


Lemma repeated_name_gets_first_suffix_witness :
  exists w',
    main_loop plain_locate flat_open [7; 8]%nat 1
      [(1, 1, "a"); (2, 2, " a.pdf")] empty_dir
    = (w', None)
    /\ written w'
       = (written empty_dir
          ++ [ensure_pdf_suffix "a";
              suffixed_name (path_stem (ensure_pdf_suffix "a")) 1])%list
    /\ files w' !! plain_locate (ensure_pdf_suffix "a")
       = Some (page_span [7; 8]%nat 1 1)
    /\ files w'
       !! plain_locate (suffixed_name (path_stem (ensure_pdf_suffix "a")) 1)
       = Some (page_span [7; 8]%nat 2 2).
Proof.
  apply (repeated_name_gets_first_suffix plain_locate flat_open
           [7; 8]%nat 1 1 1 2 2 "a" " a.pdf" empty_dir).
  - cbn. lia.
  - cbn. lia.
  - reflexivity.
  - discriminate.
  - reflexivity.
  - reflexivity.
  - intros fs. reflexivity.
  - intros fs. reflexivity.
Defined.

(** The usage table on a 20-page document: three files, of 5, 5 and 10
    pages, and the header row is no record. *)
Example usage_table_run :
  let w := fst (main plain_locate flat_open (seq 0 20) usage_table ∅) in
  written w = ["Introduction.pdf"; "Chapter1.pdf"; "Appendix.pdf"]
  /\ option_map (@length nat) (files w !! "Introduction.pdf") = Some 5%nat
  /\ option_map (@length nat) (files w !! "Chapter1.pdf") = Some 5%nat
  /\ option_map (@length nat) (files w !! "Appendix.pdf") = Some 10%nat
  /\ count_data_rows 1 (delivered (usage_table utf_8_sig)) = 3%nat.
Proof. vm_compute. repeat split. Qed.

(** Two names of one file: with [./a_1] denoting the file [a_1.pdf], the
    second run finds [a_1.pdf] in place and moves on to [a_2.pdf]. *)
Example dot_slash_names_collide :
  let table := ascii_table [["1"; "1"; "a"]; ["2"; "2"; "./a_1"]] in
  let first_run := fst (main dot_locate flat_open [7; 8]%nat table ∅) in
  let second_run :=
    fst (main dot_locate flat_open [7; 8]%nat table (files first_run)) in
  written first_run = ["a.pdf"; "./a_1.pdf"]
  /\ written second_run = ["a_2.pdf"; "a_1_1.pdf"].
Proof. vm_compute. split; reflexivity. Qed.
(** ** Names and collisions *)

Lemma strip_by_fixed (f : ascii -> bool) (s : string) :
  rstrip_by f (lstrip_by f s) = s ->
  lstrip_by f s = s /\ rstrip_by f s = s.
Proof.
  intros H. assert (lstrip_by f s = s) as L.
  { rewrite <- H at 1.
    rewrite lstrip_rstrip_by by apply lstrip_by_idem. exact H. }
  split; [exact L|]. rewrite L in H. exact H.
Qed.

Lemma lstrip_by_all (f : ascii -> bool) (s : string) :
  all_chars f s = true -> lstrip_by f s = "".
Proof.
  induction s as [|c s IH]; [reflexivity|]. cbn [all_chars lstrip_by].
  intros H. apply andb_true_iff in H. destruct H as [-> A]. auto.
Qed.

(** Stripping removes a wrapper made of stripped characters. *)
Lemma strip_by_wrapped (f : ascii -> bool) (a s b : string) :
  all_chars f a = true -> all_chars f b = true ->
  rstrip_by f (lstrip_by f s) = s ->
  rstrip_by f (lstrip_by f (a +:+ s +:+ b)) = s.
Proof.
  intros A B H. apply strip_by_fixed in H. destruct H as [L R].
  rewrite lstrip_by_app_all by exact A.
  destruct (lstrip_by_fixed f s L) as [->|(c & t & -> & F)].
  - rewrite append_nil_l, lstrip_by_all by exact B. reflexivity.
  - rewrite append_cons. cbn [lstrip_by]. rewrite F, <- append_cons.
    rewrite rstrip_by_app_all by exact B. exact R.
Qed.

(** A text whose first and last characters are not stripped is left as
    it is. *)
Lemma strip_by_ends (f : ascii -> bool) (c d : ascii) (s : string) :
  f c = false -> f d = false ->
  rstrip_by f (lstrip_by f (String c (s +:+ String d "")))
  = String c (s +:+ String d "").
Proof.
  intros C D. cbn [lstrip_by]. rewrite C, <- append_cons.
  apply rstrip_by_app_fixed; [reflexivity|].
  cbn [rstrip_by truthy negb]. rewrite D. reflexivity.
Qed.

Lemma strip_append_pdf (o : string) :
  strip o = o -> strip (o +:+ ".pdf") = o +:+ ".pdf".
Proof.
  unfold strip. rewrite !rstrip_as_by, !lstrip_as_by. intros H.
  apply strip_by_fixed in H. destruct H as [L _].
  assert (lstrip_by is_space (o +:+ ".pdf") = o +:+ ".pdf") as ->.
  { destruct (lstrip_by_fixed _ o L) as [->|(c & t & -> & F)];
      [reflexivity|].
    rewrite append_cons. cbn [lstrip_by]. rewrite F. reflexivity. }
  apply rstrip_by_app_fixed; reflexivity.
Qed.

(** X13: normalizing an output name twice is the same as normalizing it
    once, and a trimmed name without the extension normalizes to the same
    file name as that name with [.pdf] added: both records write to the
    same target. *)
Theorem ensure_pdf_suffix_idempotent (output_file : string) :
  ensure_pdf_suffix (ensure_pdf_suffix output_file)
  = ensure_pdf_suffix output_file
  /\ (strip output_file = output_file ->
      endswith ".pdf" (lower output_file) = false ->
      ensure_pdf_suffix (output_file +:+ ".pdf")
      = ensure_pdf_suffix output_file).
Proof.
  assert (forall o, strip o = o ->
            ensure_pdf_suffix (o +:+ ".pdf") = o +:+ ".pdf") as P.
  { intros o H. unfold ensure_pdf_suffix. cbv zeta.
    rewrite (strip_append_pdf o H), lower_append.
    change (lower ".pdf") with ".pdf". rewrite endswith_append.
    reflexivity. }
  split.
  - unfold ensure_pdf_suffix at 2 3. cbv zeta.
    destruct (endswith ".pdf" (lower (strip output_file))) eqn:E;
      cbn [negb].
    + unfold ensure_pdf_suffix. cbv zeta. rewrite strip_idem, E.
      reflexivity.
    + apply P, strip_idem.
  - intros H E. rewrite (P _ H). unfold ensure_pdf_suffix. cbv zeta.
    rewrite H, E. reflexivity.
Qed.

Lemma ensure_pdf_suffix_idempotent_witness :
  ensure_pdf_suffix ("Intro" +:+ ".pdf") = ensure_pdf_suffix "Intro".
Proof.
  apply (proj2 (ensure_pdf_suffix_idempotent "Intro")); reflexivity.
Defined.

Lemma contains_slash_cons (c : ascii) (t : string) :
  contains "/" (String c t) = Ascii.eqb "/" c || contains "/" t.
Proof. cbn [contains startswith]. rewrite andb_true_r. reflexivity. Qed.

Lemma contains_slash_append (a b : string) :
  contains "/" (a +:+ b) = contains "/" a || contains "/" b.
Proof.
  induction a as [|c a IH]; [reflexivity|].
  rewrite append_cons, !contains_slash_cons, IH, orb_assoc. reflexivity.
Qed.

Lemma path_name_no_slash (p : string) : contains "/" (path_name p) = false.
Proof.
  induction p as [|c t IH]; [reflexivity|]. cbn [path_name].
  destruct (contains "/" t) eqn:S; [exact IH|].
  destruct (Ascii.eqb c "/") eqn:E; [exact S|].
  rewrite contains_slash_cons, S, Ascii.eqb_sym, E. reflexivity.
Qed.

Lemma path_name_plain (p : string) :
  contains "/" p = false -> path_name p = p.
Proof.
  destruct p as [|c t]; [reflexivity|].
  rewrite contains_slash_cons. intros H. apply orb_false_iff in H.
  destruct H as [E S]. cbn [path_name].
  rewrite S, Ascii.eqb_sym, E. reflexivity.
Qed.

Lemma substring_no_slash (s : string) (i : nat) :
  contains "/" s = false -> contains "/" (substring 0 i s) = false.
Proof.
  revert i. induction s as [|c t IH]; intros [|i]; try reflexivity.
  rewrite contains_slash_cons. intros H. apply orb_false_iff in H.
  destruct H as [E S]. cbn [substring].
  rewrite contains_slash_cons, E, (IH i S). reflexivity.
Qed.

Lemma path_stem_no_slash (p : string) : contains "/" (path_stem p) = false.
Proof.
  unfold path_stem. pose proof (path_name_no_slash p) as N.
  destruct (rfind_dot (path_name p)) as [i|]; [|exact N].
  destruct ((0 <? i)%nat && (i <? String.length (path_name p) - 1)%nat);
    [|exact N].
  now apply substring_no_slash.
Qed.

Lemma str_nat_no_slash (n : nat) : contains "/" (str_nat n) = false.
Proof.
  unfold str_nat. induction (Nat.to_uint n) as [|d IH|d IH|d IH|d IH|d IH
    |d IH|d IH|d IH|d IH|d IH]; [reflexivity|..];
    cbn [NilEmpty.string_of_uint]; rewrite contains_slash_cons, IH;
    reflexivity.
Qed.

Lemma rfind_dot_split (s : string) (i : nat) :
  rfind_dot s = Some i ->
  exists rest, s = substring 0 i s +:+ String "." rest.
Proof.
  revert i. induction s as [|c t IH]; intros i; [discriminate|].
  cbn [rfind_dot]. destruct (rfind_dot t) as [j|] eqn:R.
  - intros [= <-]. destruct (IH j eq_refl) as [rest E].
    exists rest. cbn [substring]. rewrite append_cons, <- E. reflexivity.
  - destruct (Ascii.eqb_spec c "."); [|discriminate].
    intros [= <-]. subst c. exists t. reflexivity.
Qed.

(** A suffixed candidate is never the target itself. *)
Lemma suffixed_name_ne_target (target : string) (n : nat) :
  suffixed_name (path_stem target) n <> target.
Proof.
  intros E. destruct (contains "/" target) eqn:S.
  - assert (contains "/" (suffixed_name (path_stem target) n) = false) as N.
    { unfold suffixed_name.
      rewrite !contains_slash_append, path_stem_no_slash, str_nat_no_slash.
      reflexivity. }
    congruence.
  - unfold path_stem in E. rewrite (path_name_plain _ S) in E.
    assert (suffixed_name target n <> target) as Whole.
    { intros W. apply (f_equal String.length) in W. unfold suffixed_name in W.
      rewrite !append_length in W. cbn in W. lia. }
    destruct (rfind_dot target) as [i|] eqn:R; [|contradiction].
    destruct ((0 <? i)%nat && (i <? String.length target - 1)%nat);
      [|contradiction].
    destruct (rfind_dot_split _ _ R) as [rest T].
    rewrite T in E at 2. unfold suffixed_name in E.
    apply append_inj_l in E. discriminate.
Qed.

(** ** Operator prompts *)

Lemma strip_wrapped_in_spaces (ws1 ws2 x : string) :
  all_chars is_space ws1 = true -> all_chars is_space ws2 = true ->
  strip x = x -> strip (ws1 +:+ x +:+ ws2) = x.
Proof.
  unfold strip. rewrite !rstrip_as_by, !lstrip_as_by.
  apply strip_by_wrapped.
Qed.

Lemma strip_quoted (q : ascii) (s : string) :
  is_space q = false ->
  strip (String q (s +:+ String q "")) = String q (s +:+ String q "").
Proof.
  intros Q. unfold strip. rewrite !rstrip_as_by, !lstrip_as_by.
  now apply strip_by_ends.
Qed.

Lemma answer_double_quoted (s : string) :
  strip_chars double_quote s = s -> strip_chars single_quote s = s ->
  answer (double_quote +:+ s +:+ double_quote) = s.
Proof.
  intros D S. unfold answer.
  change (double_quote +:+ s +:+ double_quote)
    with (String (ascii_of_nat 34) (s +:+ String (ascii_of_nat 34) "")).
  rewrite strip_quoted by reflexivity.
  change (String (ascii_of_nat 34) (s +:+ String (ascii_of_nat 34) ""))
    with (double_quote +:+ s +:+ double_quote).
  unfold strip_chars at 2.
  rewrite (strip_by_wrapped (char_in double_quote) double_quote s double_quote)
    by (reflexivity || exact D).
  exact S.
Qed.

Lemma answer_single_quoted (s : string) :
  strip_chars single_quote s = s ->
  answer (single_quote +:+ s +:+ single_quote) = s.
Proof.
  intros S. unfold answer.
  change (single_quote +:+ s +:+ single_quote)
    with (String "'" (s +:+ String "'" "")).
  rewrite strip_quoted by reflexivity.
  unfold strip_chars at 2.
  rewrite (strip_by_ends (char_in double_quote)) by reflexivity.
  change (String "'" (s +:+ String "'" ""))
    with (single_quote +:+ s +:+ single_quote).
  unfold strip_chars.
  apply (strip_by_wrapped (char_in single_quote) single_quote s single_quote);
    (reflexivity || exact S).
Qed.

Lemma answer_ignores_outer_spaces (ws1 ws2 x : string) :
  all_chars is_space ws1 = true -> all_chars is_space ws2 = true ->
  strip x = x -> answer (ws1 +:+ x +:+ ws2) = answer x.
Proof.
  intros A B X. unfold answer.
  rewrite (strip_wrapped_in_spaces ws1 ws2 x A B X), X. reflexivity.
Qed.

Section PromptProperties.

Variable PathT : Type.
Variable Path : string -> PathT.
Variable FileSystem : Type.
Variable OSError : Type.
Variable path_exists : FileSystem -> PathT -> bool.
Variable path_is_dir : FileSystem -> PathT -> bool.
Variable mkdir_parents : FileSystem -> PathT -> option OSError * FileSystem.

(** X15: an answer typed between a pair of double quotes or a pair of
    single quotes, with blanks around, is read as the text between the
    quotes, blanks inside the quotes included, provided that text has no
    quote at either end.  Both prompts then behave as for any other line
    that is read as that text. *)
Theorem quoted_answer_is_unwrapped (fs : FileSystem)
    (ws1 ws2 quote s : string) :
  all_chars is_space ws1 = true ->
  all_chars is_space ws2 = true ->
  quote = double_quote \/ quote = single_quote ->
  strip_chars double_quote s = s ->
  strip_chars single_quote s = s ->
  answer (ws1 +:+ (quote +:+ s +:+ quote) +:+ ws2) = s
  /\ prompt_path PathT Path FileSystem OSError path_exists fs
       (ws1 +:+ (quote +:+ s +:+ quote) +:+ ws2)
     = (if negb (path_exists fs (Path s))
        then inl (FileNotFoundError PathT OSError (Path s))
        else inr (Path s))
  /\ forall line',
       answer line' = s ->
       prompt_output_dir PathT Path FileSystem OSError path_exists
         path_is_dir mkdir_parents fs
         (ws1 +:+ (quote +:+ s +:+ quote) +:+ ws2)
       = prompt_output_dir PathT Path FileSystem OSError path_exists
           path_is_dir mkdir_parents fs line'.
Proof.
  intros A B Q D S.
  assert (answer (ws1 +:+ (quote +:+ s +:+ quote) +:+ ws2) = s) as E.
  { destruct Q as [-> | ->].
    - rewrite answer_ignores_outer_spaces; [now apply answer_double_quoted
                                           |exact A|exact B|].
      change (double_quote +:+ s +:+ double_quote)
        with (String (ascii_of_nat 34) (s +:+ String (ascii_of_nat 34) "")).
      now apply strip_quoted.
    - rewrite answer_ignores_outer_spaces; [now apply answer_single_quoted
                                           |exact A|exact B|].
      change (single_quote +:+ s +:+ single_quote)
        with (String "'" (s +:+ String "'" "")).
      now apply strip_quoted. }
  split; [exact E|]. split.
  - unfold prompt_path. rewrite E. reflexivity.
  - intros line' E'. unfold prompt_output_dir. rewrite E, E'. reflexivity.
Qed.

(** X16: the quotes are removed in a fixed order, double quotes first:
    single quotes inside double quotes are removed as well, while double
    quotes inside single quotes stay in the text the path is built
    from. *)
Theorem nested_quotes_are_removed_in_order (s : string) :
  answer (single_quote +:+ (double_quote +:+ s +:+ double_quote)
          +:+ single_quote)
  = double_quote +:+ s +:+ double_quote
  /\ (strip_chars single_quote s = s ->
      answer (double_quote +:+ (single_quote +:+ s +:+ single_quote)
              +:+ double_quote) = s).
Proof.
  split.
  - apply answer_single_quoted.
    change (double_quote +:+ s +:+ double_quote)
      with (String (ascii_of_nat 34) (s +:+ String (ascii_of_nat 34) "")).
    unfold strip_chars. now apply strip_by_ends.
  - intros S. unfold answer.
    change (double_quote +:+ (single_quote +:+ s +:+ single_quote)
            +:+ double_quote)
      with (String (ascii_of_nat 34)
              ((single_quote +:+ s +:+ single_quote)
               +:+ String (ascii_of_nat 34) "")).
    rewrite strip_quoted by reflexivity.
    change (String (ascii_of_nat 34)
              ((single_quote +:+ s +:+ single_quote)
               +:+ String (ascii_of_nat 34) ""))
      with (double_quote +:+ (single_quote +:+ s +:+ single_quote)
            +:+ double_quote).
    unfold strip_chars at 2.
    rewrite (strip_by_wrapped (char_in double_quote) double_quote
               (single_quote +:+ s +:+ single_quote) double_quote);
      try reflexivity.
    + unfold strip_chars.
      apply (strip_by_wrapped (char_in single_quote) single_quote s
               single_quote); (reflexivity || exact S).
    + change (single_quote +:+ s +:+ single_quote)
        with (String "'" (s +:+ String "'" "")).
      now apply strip_by_ends.
Qed.

(** X17: [prompt_output_dir] returns a path only when that path is a
    directory in the file system it leaves behind.  It creates the
    directory only when the path does not exist; for a path that exists
    the file system is left as it was. *)
Theorem prompt_output_dir_returns_directory (fs fs' : FileSystem)
    (line : string) (p : PathT) :
  prompt_output_dir PathT Path FileSystem OSError path_exists path_is_dir
    mkdir_parents fs line = (inr p, fs') ->
  p = Path (answer line)
  /\ path_is_dir fs' p = true
  /\ (path_exists fs p = true -> fs' = fs)
  /\ (path_exists fs p = false -> mkdir_parents fs p = (None, fs')).
Proof.
  unfold prompt_output_dir.
  destruct (path_exists fs (Path (answer line))) eqn:X; cbn [negb].
  - destruct (path_is_dir fs (Path (answer line))) eqn:D; cbn [negb];
      [|discriminate].
    intros [= <- <-]. rewrite X. repeat split; auto. discriminate.
  - destruct (mkdir_parents fs (Path (answer line))) as [[e|] fs1] eqn:M;
      [discriminate|].
    destruct (path_is_dir fs1 (Path (answer line))) eqn:D; cbn [negb];
      [|discriminate].
    intros [= <- <-]. rewrite X. repeat split; auto. discriminate.
Qed.

End PromptProperties.

Lemma quoted_answer_is_unwrapped_witness :
  answer ("  " +:+ (double_quote +:+ "in.pdf" +:+ double_quote) +:+ " ")
  = "in.pdf"
  /\ prompt_path string (fun s => s) SampleFS unit sample_exists sample_disk
       ("  " +:+ (double_quote +:+ "in.pdf" +:+ double_quote) +:+ " ")
     = (if negb (sample_exists sample_disk "in.pdf")
        then inl (FileNotFoundError string unit "in.pdf")
        else inr "in.pdf")
  /\ forall line',
       answer line' = "in.pdf" ->
       prompt_output_dir string (fun s => s) SampleFS unit sample_exists
         sample_is_dir sample_mkdir sample_disk
         ("  " +:+ (double_quote +:+ "in.pdf" +:+ double_quote) +:+ " ")
       = prompt_output_dir string (fun s => s) SampleFS unit sample_exists
           sample_is_dir sample_mkdir sample_disk line'.
Proof.
  apply (quoted_answer_is_unwrapped string (fun s => s) SampleFS unit
           sample_exists sample_is_dir sample_mkdir sample_disk
           "  " " " double_quote "in.pdf").
  - reflexivity.
  - reflexivity.
  - left. reflexivity.
  - reflexivity.
  - reflexivity.
Defined.

Lemma nested_quotes_are_removed_in_order_witness :
  answer (double_quote +:+ (single_quote +:+ "out dir" +:+ single_quote)
          +:+ double_quote) = "out dir".
Proof.
  apply (proj2 (nested_quotes_are_removed_in_order "out dir")). reflexivity.
Defined.

Lemma prompt_output_dir_returns_directory_witness :
  "out" = (fun s : string => s) (answer " 'out' ")
  /\ sample_is_dir (snd (sample_mkdir sample_disk "out")) "out" = true
  /\ (sample_exists sample_disk "out" = true ->
      snd (sample_mkdir sample_disk "out") = sample_disk)
  /\ (sample_exists sample_disk "out" = false ->
      sample_mkdir sample_disk "out"
      = (None, snd (sample_mkdir sample_disk "out"))).
Proof.
  apply (prompt_output_dir_returns_directory string (fun s => s) SampleFS
           unit sample_exists sample_is_dir sample_mkdir sample_disk
           (snd (sample_mkdir sample_disk "out")) " 'out' " "out").
  reflexivity.
Defined.

(** ** Errors and results of the parser *)

Lemma rows_loop_inl (input : list csv_row) (i : nat) (acc : list range)
    (e : RowError) :
  rows_loop i input acc = inl e ->
  exists pre row post acc',
    input = (pre ++ row :: post)%list
    /\ rows_loop i pre acc = inr acc'
    /\ malformed_row (i + length pre) row e.
Proof.
  revert i acc. induction input as [|row rest IH]; intros i acc;
    [discriminate|].
  cbn [rows_loop]. destruct (row_body i row) as [|e'|r] eqn:B.
  - intros H. destruct (IH _ _ H) as (pre & row' & post & acc' & -> & P & M).
    exists (row :: pre), row', post, acc'. split; [reflexivity|].
    cbn [rows_loop length]. rewrite B. split; [exact P|].
    replace (i + S (length pre))%nat with (S i + length pre)%nat by lia.
    exact M.
  - intros [= ->]. exists [], row, rest, acc. split; [reflexivity|].
    split; [reflexivity|]. cbn [length]. rewrite Nat.add_0_r.
    now apply row_body_raise_iff.
  - intros H. destruct (IH _ _ H) as (pre & row' & post & acc' & -> & P & M).
    exists (row :: pre), row', post, acc'. split; [reflexivity|].
    cbn [rows_loop length]. rewrite B. split; [exact P|].
    replace (i + S (length pre))%nat with (S i + length pre)%nat by lia.
    exact M.
Qed.

(** X18: every error of the row loop is raised for a malformed row: the
    first row of the file that is malformed, after rows that raise
    nothing, and the error carries that row's number in the file, blank
    rows and the header row counted. *)
Theorem parse_error_names_first_malformed_row (input : list csv_row)
    (e : RowError) :
  rows_loop 1 input [] = inl e ->
  exists pre row post acc,
    input = (pre ++ row :: post)%list
    /\ rows_loop 1 pre [] = inr acc
    /\ malformed_row (S (length pre)) row e.
Proof.
  intros H. destruct (rows_loop_inl _ _ _ _ H)
    as (pre & row & post & acc & E & P & M).
  exists pre, row, post, acc. auto.
Qed.

Lemma parse_error_names_first_malformed_row_witness :
  exists pre row post acc,
    [["start"; "stop"; "filename"]; []; ["x"; "2"; "b"]; ["1"]]
    = (pre ++ row :: post)%list
    /\ rows_loop 1 pre [] = inr acc
    /\ malformed_row (S (length pre)) row (StartStopNotIntegers 3 "x" "2").
Proof.
  apply (parse_error_names_first_malformed_row
           [["start"; "stop"; "filename"]; []; ["x"; "2"; "b"]; ["1"]]
           (StartStopNotIntegers 3 "x" "2")).
  reflexivity.
Defined.

(** X19: the records the parser returns all come from one reading of the
    file, under the last encoding opened, which ended without a decoding
    failure; rows read under an encoding that failed to decode are
    dropped, not carried over. *)
Theorem records_come_from_one_encoding (file : CsvFile)
    (ranges : list range) :
  fst (read_ranges_csv file) = inr ranges ->
  exists enc,
    last (snd (read_ranges_csv file)) = Some enc
    /\ rows_loop 1 (delivered (file enc)) [] = inr ranges
    /\ decode_failure (file enc) = None
    /\ forall x, In x (removelast (snd (read_ranges_csv file))) ->
                 decoding_fails file x.
Proof.
  intros R. destruct (read_ranges_csv file) as [res opened] eqn:E.
  cbn [fst snd] in *. subst res.
  destruct (encodings_loop_inr _ _ _ _ _ E) as (pre & enc & -> & T).
  apply try_encoding_inr in T. destruct T as [P D].
  exists enc. split; [apply last_snoc|]. split; [exact P|].
  split; [exact D|]. intros x Hx.
  apply (encodings_loop_opened file encodings_to_try None).
  unfold read_ranges_csv in E. rewrite E. exact Hx.
Qed.

Lemma records_come_from_one_encoding_witness :
  exists enc,
    last (snd (read_ranges_csv (cp1252_table [["1"; "5"; "Intro"]])))
    = Some enc
    /\ rows_loop 1 (delivered (cp1252_table [["1"; "5"; "Intro"]] enc)) []
       = inr [(1, 5, "Intro")]
    /\ decode_failure (cp1252_table [["1"; "5"; "Intro"]] enc) = None
    /\ forall x,
         In x (removelast
                 (snd (read_ranges_csv (cp1252_table [["1"; "5"; "Intro"]])))) ->
         decoding_fails (cp1252_table [["1"; "5"; "Intro"]]) x.
Proof.
  apply (records_come_from_one_encoding
           (cp1252_table [["1"; "5"; "Intro"]]) [(1, 5, "Intro")]).
  reflexivity.
Defined.
Example int_samples :
  int "12" = Some 12 /\ int "-3" = Some (-3) /\ int "1_000" = Some 1000
  /\ int "007" = Some 7 /\ int "x" = None /\ int "" = None
  /\ int "1__0" = None /\ int "_1" = None /\ int "1_" = None
  /\ int "1.5" = None.
Proof. repeat split; reflexivity. Qed.

Example text_samples :
  strip "  a b  " = "a b" /\ strip "   " = "" /\ lower "A.PdF" = "a.pdf"
  /\ endswith ".pdf" "x.pdf" = true /\ endswith ".pdf" "pdf" = false
  /\ contains "start" "restarted" = true /\ str_nat 12 = "12".
Proof. repeat split; reflexivity. Qed.

Example path_stem_samples :
  path_stem "Report.PDF" = "Report" /\ path_stem "a.b.pdf" = "a.b"
  /\ path_stem "dir/x.pdf" = "x" /\ path_stem ".pdf" = ".pdf"
  /\ suffixed_name (path_stem "Report.PDF") 2 = "Report_2.pdf".
Proof. repeat split; reflexivity. Qed.

(** A permissive header and a non-integer page field. *)
Example parser_samples :
  rows_loop 1 [["Start Page"; "Stop Page"; "File"]; [" 1"; "5 "; " Intro "]] []
  = inr [(1, 5, "Intro")]
  /\ rows_loop 1 [["1"; "x"; "out"]] []
     = inl (StartStopNotIntegers 1 "1" "x")
  /\ rows_loop 1 [["filename"; "start"; "stop"]; ["1"; "2"; " "]] []
     = inl (FilenameBlank 2).
Proof. repeat split; reflexivity. Qed.

